(** * MindTrace client: a shallow embedding of its stateful code

    The client is a React view layer.  Four pieces of it carry behaviour
    worth stating: the alert hook [useSOSAlerts], the reset-password form,
    the profile page's change tracking, and the confidence overlay of the
    face-recognition page.

    Every [async] function of the source is embedded as a tree of type
    [Async.t]: a node per state-setter call, notification or log line, and a
    node per [await], whose continuation receives the outcome of the awaited
    promise.  Such a tree can be run in one go against a server ([Async.run]),
    or through an event loop in which several requests are in flight and
    complete in any order ([Async.settle]). *)

From Stdlib Require Import Bool List String Ascii ZArith Lia.
From Stdlib Require Import Floats.PrimFloat Floats.SpecFloat Floats.FloatOps.
From Stdlib Require Import DecimalString.
Import ListNotations.
#[local] Set Warnings "-inexact-float".
Local Open Scope string_scope.

(** ** JavaScript values *)

Module JS.

(** A JavaScript number is an IEEE 754 binary64 value. *)
Definition number : Type := float.

(** A JavaScript string is a [string], one character for each code unit:
    [String.length] is [.length], [String.eqb] is [===] and [++] is [+]. *)

(** [ToBoolean]: what [||], [!] and [if] look at. *)
Class Truthy (A : Type) : Type := truthy : A -> bool.

#[export] Instance truthy_bool : Truthy bool := fun b => b.

#[export] Instance truthy_string : Truthy string :=
  fun s => negb (String.eqb s "").

(** [0], [-0] and [NaN] are the falsy numbers. *)
#[export] Instance truthy_number : Truthy number :=
  fun x => negb (PrimFloat.eqb x 0%float || PrimFloat.is_nan x).

(** A property that may be missing ([undefined]) or [null] is an [option];
    both are falsy. *)
#[export] Instance truthy_option {A} `{Truthy A} : Truthy (option A) :=
  fun v => match v with Some x => truthy x | None => false end.

(** [v || d] where [d] is a default of the same type. *)
Definition or_default {A} `{Truthy A} (v : option A) (d : A) : A :=
  match v with
  | Some x => if truthy x then x else d
  | None => d
  end.

(** [v || null]. *)
Definition or_null {A} `{Truthy A} (v : option A) : option A :=
  match v with
  | Some x => if truthy x then Some x else None
  | None => None
  end.

End JS.

(** ** Asynchronous functions *)

Module Async.

(** What an async function can do to its surroundings: perform an action
    (synchronously) or issue a request and wait for its response. *)
Record Sig : Type := {
  Act : Type;
  Req : Type;
  Resp : Req -> Type;
  Err : Type                  (* what a rejected promise carries *)
}.

(** How a promise settles. *)
Inductive Outcome (E A : Type) : Type :=
| Fulfilled (a : A)
| Rejected (e : E).
Arguments Fulfilled {E A} a.
Arguments Rejected {E A} e.

Section Trees.
Variable Sg : Sig.

Inductive t (R : Type) : Type :=
| Ret (r : R)                       (* return r *)
| Throw (e : Err Sg)                (* throw e *)
| Do (a : Act Sg) (k : t R)         (* a synchronous call, then k *)
| Await (q : Req Sg) (k : Outcome (Err Sg) (Resp Sg q) -> t R).

Arguments Ret {R} r.
Arguments Throw {R} e.
Arguments Do {R} a k.
Arguments Await {R} q k.

Fixpoint bind {A B} (p : t A) (f : A -> t B) : t B :=
  match p with
  | Ret r => f r
  | Throw e => Throw e
  | Do a k => Do a (bind k f)
  | Await q k => Await q (fun o => bind (k o) f)
  end.

(** [try { p } catch (e) { h e }] *)
Fixpoint try_catch {A} (p : t A) (h : Err Sg -> t A) : t A :=
  match p with
  | Ret r => Ret r
  | Throw e => h e
  | Do a k => Do a (try_catch k h)
  | Await q k => Await q (fun o => try_catch (k o) h)
  end.

(** [try { p } finally { f }], for a block [f] that neither returns nor
    throws on its own account. *)
Fixpoint try_finally {A} (p : t A) (f : t unit) : t A :=
  match p with
  | Ret r => bind f (fun _ => Ret r)
  | Throw e => bind f (fun _ => Throw e)
  | Do a k => Do a (try_finally k f)
  | Await q k => Await q (fun o => try_finally (k o) f)
  end.

(** [await q]: the response, or the rejection rethrown at this point. *)
Definition await (q : Req Sg) : t (Resp Sg q) :=
  Await q (fun o => match o with
                    | Fulfilled a => Ret a
                    | Rejected e => Throw e
                    end).

Definition perform (a : Act Sg) : t unit := Do a (Ret tt).

(** The caller drops the returned value. *)
Definition void {A} (p : t A) : t unit := bind p (fun _ => Ret tt).

(** *** Running a call on its own *)

Inductive Event : Type :=
| EAct (a : Act Sg)
| EReq (q : Req Sg).

(** The far end: how each request settles. *)
Definition Server : Type := forall q : Req Sg, Outcome (Err Sg) (Resp Sg q).

(** The call run to its end: what it did, in order, and how its promise
    settled. *)
Fixpoint run {R} (srv : Server) (p : t R) : list Event * Outcome (Err Sg) R :=
  match p with
  | Ret r => ([], Fulfilled r)
  | Throw e => ([], Rejected e)
  | Do a k => let '(l, o) := run srv k in (EAct a :: l, o)
  | Await q k => let '(l, o) := run srv (k (srv q)) in (EReq q :: l, o)
  end.

Definition actions (l : list Event) : list (Act Sg) :=
  flat_map (fun e => match e with EAct a => [a] | EReq _ => [] end) l.

Definition requests (l : list Event) : list (Req Sg) :=
  flat_map (fun e => match e with EReq q => [q] | EAct _ => [] end) l.

(** *** The event loop *)

(** A call suspended at an [await]. *)
Record Pending : Type := {
  request : Req Sg;
  resume : Outcome (Err Sg) (Resp Sg request) -> t unit
}.

Record Loop (S : Type) : Type := {
  state : S;
  inflight : list Pending;
  history : list Event
}.
Arguments state {S} _.
Arguments inflight {S} _.
Arguments history {S} _.

Section WithState.
Context {S : Type}.
Variable handle : Act Sg -> S -> S.

(** Run [p] up to its next [await] (or its end).  A rejection nobody
    catches ends the call and changes nothing. *)
Fixpoint advance (p : t unit) (w : Loop S) : Loop S :=
  match p with
  | Ret _ => w
  | Throw _ => w
  | Do a k =>
      advance k {| state := handle a (state w);
                   inflight := inflight w;
                   history := history w ++ [EAct a] |}
  | Await q k =>
      {| state := state w;
         inflight := inflight w ++ [{| request := q; resume := k |}];
         history := history w ++ [EReq q] |}
  end.

Fixpoint drop_nth {A} (i : nat) (l : list A) : list A :=
  match l, i with
  | [], _ => []
  | _ :: l', O => l'
  | x :: l', Datatypes.S i' => x :: drop_nth i' l'
  end.

(** The [i]-th request in flight settles as the server says, and the
    call that waited for it runs on. *)
Definition settle (i : nat) (srv : Server) (w : Loop S) : Loop S :=
  match nth_error (inflight w) i with
  | None => w
  | Some pd =>
      advance (resume pd (srv (request pd)))
              {| state := state w;
                 inflight := drop_nth i (inflight w);
                 history := history w |}
  end.

(** The [i]-th request in flight settles, then the one that takes its
    place, and so on, [n] times. *)
Fixpoint settle_each (n i : nat) (srv : Server) (w : Loop S) : Loop S :=
  match n with
  | O => w
  | Datatypes.S n' => settle_each n' i srv (settle i srv w)
  end.

(** What [p] logs up to and including its next [await]. *)
Fixpoint segment (p : t unit) : list Event :=
  match p with
  | Do a k => EAct a :: segment k
  | Await q _ => [EReq q]
  | _ => []
  end.

(** The state once [p] has run up to its next [await]. *)
Fixpoint sync (p : t unit) (s : S) : S :=
  match p with
  | Do a k => sync k (handle a s)
  | _ => s
  end.

(** The state after a list of actions, in order. *)
Definition replay (s : S) (l : list Event) : S :=
  fold_left (fun s a => handle a s) (actions l) s.

End WithState.

(** [P] holds of every continuation in [p]: whatever admissible outcome
    an [await] of [p] receives, the code that runs next satisfies [P],
    and so on down the tree. *)
Section Hereditarily.
Variable admissible : forall q : Req Sg, Outcome (Err Sg) (Resp Sg q) -> Prop.
Variable P : forall q : Req Sg, Outcome (Err Sg) (Resp Sg q) -> t unit -> Prop.

Fixpoint hereditarily (p : t unit) : Prop :=
  match p with
  | Ret _ => True
  | Throw _ => True
  | Do _ k => hereditarily k
  | Await q k =>
      forall o, admissible q o -> P q o (k o) /\ hereditarily (k o)
  end.

Definition tame (pd : Pending) : Prop :=
  forall o, admissible (request pd) o ->
            P (request pd) o (resume pd o) /\ hereditarily (resume pd o).
End Hereditarily.
End Trees.

Arguments Ret {Sg R} r.
Arguments Throw {Sg R} e.
Arguments Do {Sg R} a k.
Arguments Await {Sg R} q k.
Arguments bind {Sg A B} p f.
Arguments try_catch {Sg A} p h.
Arguments try_finally {Sg A} p f.
Arguments await {Sg} q.
Arguments perform {Sg} a.
Arguments void {Sg A} p.
Arguments EAct {Sg} a.
Arguments EReq {Sg} q.
Arguments run {Sg R} srv p.
Arguments actions {Sg} l.
Arguments requests {Sg} l.
Arguments request {Sg} _.
Arguments resume {Sg} _ _.
Arguments Build_Pending {Sg} _ _.
Arguments state {Sg S} _.
Arguments inflight {Sg S} _.
Arguments history {Sg S} _.
Arguments Build_Loop {Sg S} _ _ _.
Arguments advance {Sg S} handle p w.
Arguments drop_nth {A} i l.
Arguments settle {Sg S} handle i srv w.
Arguments settle_each {Sg S} handle n i srv w.
Arguments replay {Sg S} handle s l.
Arguments sync {Sg S} handle p s.
Arguments segment {Sg} p.
Arguments hereditarily {Sg} admissible P p.
Arguments tame {Sg} admissible P pd.

Module Notations.
Declare Scope async_scope.
Delimit Scope async_scope with async.
Notation "x <- p ;; k" := (bind p (fun x => k))
  (at level 61, p at next level, right associativity) : async_scope.
Notation "p ;;; k" := (bind p (fun _ => k))
  (at level 61, right associativity) : async_scope.
End Notations.

End Async.

(** ** The alert hook: client/src/hooks/useSOSAlerts.js *)

Module SOSAlerts.
Import JS Async Async.Notations.
Local Open Scope async_scope.

(** *** Data *)

Inductive Status : Type := active | acknowledged | resolved.

Record Location : Type := {
  lat : number;
  lng : number;
  address : option string
}.

(** An object is truthy whatever it holds. *)
#[export] Instance truthy_Location : Truthy Location := fun _ => true.

Record Alert : Type := {
  id : Z;
  status : Status;
  is_test : option bool;
  timestamp : string;
  resolved_at : option string;
  resolved_by : option string;
  notes : option string;
  location : option Location;
  battery_level : option number;
  connection_status : option string
}.

(** The argument of [triggerAlert]; [{}] when the caller passes none. *)
Record Options : Type := {
  isTest : option bool;
  opt_location : option Location;
  batteryLevel : option number;
  connectionStatus : option string
}.

Definition no_options : Options :=
  {| isTest := None; opt_location := None;
     batteryLevel := None; connectionStatus := None |}.

(** The body of the create request. *)
Record AlertData : Type := {
  d_is_test : bool;
  d_location : option Location;
  d_battery_level : option number;
  d_connection_status : string
}.

(** The body of an update request: only the keys the caller wrote. *)
Record Update : Type := {
  u_status : option Status;
  u_resolved_by : option string;
  u_notes : option string;
  u_location : option Location
}.

(** *** The API the hook calls (services/api and utils/geocoding)

    Each response is what the code reads of it: [response.data] for the
    [sosApi] calls, the address for [reverseGeocode]. *)

Inductive Request : Type :=
| getActiveAlert
| getAlerts (limit : Z) (st : Status)
| createAlert (d : AlertData)
| updateAlert (alertId : Z) (u : Update)
| clearHistoryReq
| reverseGeocode (la lo : number).

Definition Response (q : Request) : Type :=
  match q with
  | getActiveAlert => option Alert
  | getAlerts _ _ => option (list Alert)
  | createAlert _ => Alert
  | updateAlert _ _ => Alert
  | clearHistoryReq => unit
  | reverseGeocode _ _ => option string
  end.

(** *** State and synchronous effects *)

Record HookState : Type := {
  activeAlert : option Alert;
  alertHistory : list Alert;
  isLoading : bool;
  isTestMode : bool;
  (* the children of loadData's Promise.all that have not settled yet *)
  loadData_waiting : nat
}.

(** A thrown value; the hook only logs it or passes it on. *)
Definition error : Type := string.

Inductive Action : Type :=
| setActiveAlert (v : option Alert)
| setAlertHistory (v : list Alert)
| setIsLoading (v : bool)
| setIsTestMode (v : bool)
| toast_success (msg : string)
| toast_error (msg : string)
| console_error (msg : string) (e : error)
| console_warn (msg : string) (e : error)
(* Promise.all over n promises starts waiting *)
| promise_all (n : nat)
(* one of the promises handed to Promise.all is fulfilled *)
| promise_all_arrive.

Definition handle (a : Action) (s : HookState) : HookState :=
  match a with
  | setActiveAlert v =>
      {| activeAlert := v; alertHistory := alertHistory s;
         isLoading := isLoading s; isTestMode := isTestMode s;
         loadData_waiting := loadData_waiting s |}
  | setAlertHistory v =>
      {| activeAlert := activeAlert s; alertHistory := v;
         isLoading := isLoading s; isTestMode := isTestMode s;
         loadData_waiting := loadData_waiting s |}
  | setIsLoading v =>
      {| activeAlert := activeAlert s; alertHistory := alertHistory s;
         isLoading := v; isTestMode := isTestMode s;
         loadData_waiting := loadData_waiting s |}
  | setIsTestMode v =>
      {| activeAlert := activeAlert s; alertHistory := alertHistory s;
         isLoading := isLoading s; isTestMode := v;
         loadData_waiting := loadData_waiting s |}
  | promise_all n =>
      {| activeAlert := activeAlert s; alertHistory := alertHistory s;
         isLoading := isLoading s; isTestMode := isTestMode s;
         loadData_waiting := n |}
  | promise_all_arrive =>
      (* when the last one arrives, loadData goes on: setIsLoading(false) *)
      match loadData_waiting s with
      | 1 => {| activeAlert := activeAlert s; alertHistory := alertHistory s;
                isLoading := false; isTestMode := isTestMode s;
                loadData_waiting := 0 |}
      | n => {| activeAlert := activeAlert s; alertHistory := alertHistory s;
                isLoading := isLoading s; isTestMode := isTestMode s;
                loadData_waiting := pred n |}
      end
  | toast_success _ | toast_error _ | console_error _ _ | console_warn _ _ => s
  end.

Definition sg : Sig :=
  {| Act := Action; Req := Request; Resp := Response; Err := error |}.

Definition Async (R : Type) : Type := Async.t sg R.
Definition Server : Type := Async.Server sg.
Definition Event : Type := Async.Event sg.

Definition Outcome (A : Type) : Type := Async.Outcome error A.
Definition await (q : Request) : Async (Response q) := Async.await (Sg := sg) q.
Definition perform (a : Action) : Async unit := Async.perform (Sg := sg) a.

(** *** The hook's functions, in the order of the source *)

(** fetchActiveAlert: lines 25-38 *)
Definition fetchActiveAlert : Async unit :=
  try_catch
    (data <- await getActiveAlert ;;
     match data with
     | Some a =>
         perform (setActiveAlert (Some a)) ;;;
         perform (setIsTestMode (or_default (is_test a) false))
     | None =>
         perform (setActiveAlert None) ;;;
         perform (setIsTestMode false)
     end)
    (fun e => perform (console_error "Failed to fetch active alert:" e)).

(** fetchAlertHistory: lines 43-50 *)
Definition fetchAlertHistory : Async unit :=
  try_catch
    (data <- await (getAlerts 50 resolved) ;;
     perform (setAlertHistory (match data with Some l => l | None => [] end)))
    (fun e => perform (console_error "Failed to fetch alert history:" e)).

(** The object literal that opens triggerAlert: lines 85-90 *)
Definition alertData_of (options : Options) : AlertData :=
  {| d_is_test := or_default (isTest options) false;
     d_location := or_null (opt_location options);
     d_battery_level := or_null (batteryLevel options);
     d_connection_status := or_default (connectionStatus options) "online" |}.

(** [alertData.location.address = address].  The location is the object the
    caller passed in [options]; only the payload's view of it is kept here. *)
Definition set_address (d : AlertData) (loc : Location) (a : option string) : AlertData :=
  {| d_is_test := d_is_test d;
     d_location := Some {| lat := lat loc; lng := lng loc; address := a |};
     d_battery_level := d_battery_level d;
     d_connection_status := d_connection_status d |}.

(** triggerAlert: lines 83-116 *)
Definition triggerAlert (options : Options) : Async Alert :=
  try_catch
    (let alertData := alertData_of options in
     alertData <-
       match d_location alertData with
       | Some loc =>
           if negb (truthy (address loc)) then
             try_catch
               (addr <- await (reverseGeocode (lat loc) (lng loc)) ;;
                Ret (set_address alertData loc addr))
               (fun e =>
                  perform (console_warn "Geocoding failed:" e) ;;;
                  Ret alertData)
           else Ret alertData
       | None => Ret alertData
       end ;;
     alert <- await (createAlert alertData) ;;
     perform (setActiveAlert (Some alert)) ;;;
     perform (setIsTestMode (or_default (is_test alert) false)) ;;;
     perform (toast_success (if truthy (is_test alert)
                             then "Test SOS alert created"
                             else "SOS alert triggered!")) ;;;
     Ret alert)
    (fun e =>
       perform (console_error "Failed to trigger alert:" e) ;;;
       perform (toast_error "Failed to trigger SOS alert") ;;;
       Throw e).

Definition just_status (st : Status) : Update :=
  {| u_status := Some st; u_resolved_by := None;
     u_notes := None; u_location := None |}.

(** acknowledgeAlert: lines 122-131 *)
Definition acknowledgeAlert (alertId : Z) : Async unit :=
  try_catch
    (data <- await (updateAlert alertId (just_status acknowledged)) ;;
     perform (setActiveAlert (Some data)) ;;;
     perform (toast_success "Alert acknowledged"))
    (fun e =>
       perform (console_error "Failed to acknowledge alert:" e) ;;;
       perform (toast_error "Failed to acknowledge alert")).

Definition resolve_update (resolvedBy notes : string) : Update :=
  {| u_status := Some resolved; u_resolved_by := Some resolvedBy;
     u_notes := Some notes; u_location := None |}.

(** A parameter with a default: the default stands in for [undefined]. *)
Definition default_arg {A} (v : option A) (d : A) : A :=
  match v with Some x => x | None => d end.

(** resolveAlert: lines 139-158 *)
Definition resolveAlert (alertId : Z) (resolvedBy notes : option string) : Async unit :=
  let resolvedBy := default_arg resolvedBy "Caregiver" in
  let notes := default_arg notes "" in
  try_catch
    (_ <- await (updateAlert alertId (resolve_update resolvedBy notes)) ;;
     perform (setActiveAlert None) ;;;
     perform (setIsTestMode false) ;;;
     fetchAlertHistory ;;;
     perform (toast_success "Alert resolved successfully"))
    (fun e =>
       perform (console_error "Failed to resolve alert:" e) ;;;
       perform (toast_error "Failed to resolve alert")).

(** cancelAlert: lines 163-174.  [activeAlert] is the value the callback
    closed over: the slot as of the render that made the callback. *)
Definition cancelAlert (activeAlert : option Alert) : Async unit :=
  match activeAlert with
  | Some a =>
      try_catch
        (_ <- await (updateAlert (id a) (resolve_update "System" "Cancelled")) ;;
         perform (setActiveAlert None) ;;;
         perform (setIsTestMode false) ;;;
         fetchAlertHistory)
        (fun e => perform (console_error "Failed to cancel alert:" e))
  | None => Ret tt
  end.

(** clearHistory: lines 179-188 *)
Definition clearHistory : Async unit :=
  try_catch
    (_ <- await (clearHistoryReq) ;;
     perform (setAlertHistory []) ;;;
     perform (toast_success "Alert history cleared"))
    (fun e =>
       perform (console_error "Failed to clear history:" e) ;;;
       perform (toast_error "Failed to clear history")).

Definition just_location (newLocation : Location) : Update :=
  {| u_status := None; u_resolved_by := None;
     u_notes := None; u_location := Some newLocation |}.

(** updateAlertLocation: lines 194-203 *)
Definition updateAlertLocation (activeAlert : option Alert) (newLocation : Location)
  : Async unit :=
  match activeAlert with
  | Some a =>
      try_catch
        (data <- await (updateAlert (id a) (just_location newLocation)) ;;
         perform (setActiveAlert (Some data)))
        (fun e => perform (console_error "Failed to update alert location:" e))
  | None => Ret tt
  end.

(** *** The mounted hook and its event loop *)

(** What a component can call on the hook's return value. *)
Inductive Op : Type :=
| op_triggerAlert (options : Options)
| op_acknowledgeAlert (alertId : Z)
| op_resolveAlert (alertId : Z) (resolvedBy notes : option string)
| op_cancelAlert
| op_clearHistory
| op_updateAlertLocation (newLocation : Location).

(** The call, made from the render that shows state [s]. *)
Definition invoke (op : Op) (s : HookState) : Async unit :=
  match op with
  | op_triggerAlert options => void (triggerAlert options)
  | op_acknowledgeAlert alertId => acknowledgeAlert alertId
  | op_resolveAlert alertId resolvedBy notes => resolveAlert alertId resolvedBy notes
  | op_cancelAlert => cancelAlert (activeAlert s)
  | op_clearHistory => clearHistory
  | op_updateAlertLocation newLocation => updateAlertLocation (activeAlert s) newLocation
  end.

Inductive Lifecycle : Type := fresh | mounted | unmounted.

Record World : Type := {
  loop : Loop sg HookState;
  (* pollIntervalRef.current: the handle setInterval returned *)
  pollIntervalRef : option positive;
  (* the browser's side: is that interval still scheduled? *)
  interval_running : bool;
  phase : Lifecycle
}.

Definition initial : World :=
  {| loop := {| state := {| activeAlert := None; alertHistory := [];
                            isLoading := true; isTestMode := false;
                            loadData_waiting := 0 |};
                inflight := [];
                history := [] |};
     pollIntervalRef := None;
     interval_running := false;
     phase := fresh |}.

Definition with_loop (w : World) (l : Loop sg HookState) : World :=
  {| loop := l; pollIntervalRef := pollIntervalRef w;
     interval_running := interval_running w; phase := phase w |}.

Definition start (p : Async unit) (w : World) : World :=
  with_loop w (advance (Sg := sg) handle p (loop w)).

(** loadData, lines 54-58: both fetches start at once, and
    [setIsLoading(false)] waits for the two of them.  Promise.all is a
    countdown here: each fetch, once fulfilled, arrives, and the last arrival
    lets loadData go on.  (Neither fetch can reject: both catch.) *)
Definition loadData (w : World) : World :=
  start (fetchAlertHistory ;;; perform promise_all_arrive)
    (start (fetchActiveAlert ;;; perform promise_all_arrive)
       (start (perform (setIsLoading true) ;;; perform (promise_all 2)) w)).

(** The effect of lines 53-72, run once when the hook mounts. *)
Definition mount_effect (w : World) : World :=
  let w := loadData w in
  {| loop := loop w;
     pollIntervalRef := Some 1%positive;   (* setInterval(..., 3000) *)
     interval_running := true;
     phase := mounted |}.

(** Its cleanup, lines 67-71. *)
Definition cleanup (w : World) : World :=
  {| loop := loop w;
     pollIntervalRef := pollIntervalRef w;
     interval_running :=
       match pollIntervalRef w with
       | Some _ => false                   (* clearInterval *)
       | None => interval_running w
       end;
     phase := unmounted |}.

Inductive LoopEvent : Type :=
| ev_mount
| ev_unmount
| ev_tick                                  (* the interval fires *)
| ev_call (op : Op)
| ev_response (i : nat) (srv : Server).    (* a request in flight settles *)

Definition step (w : World) (e : LoopEvent) : World :=
  match e with
  | ev_mount =>
      match phase w with fresh => mount_effect w | _ => w end
  | ev_unmount =>
      match phase w with mounted => cleanup w | _ => w end
  | ev_tick =>
      if interval_running w then start fetchActiveAlert w else w
  | ev_call op => start (invoke op (state (loop w))) w
  | ev_response i srv => with_loop w (settle (Sg := sg) handle i srv (loop w))
  end.

Definition steps (w : World) (es : list LoopEvent) : World :=
  fold_left step es w.

Definition slot (w : World) : option Alert := activeAlert (state (loop w)).

(** *** What the statements below look at *)

Definition is_toast (a : Action) : bool :=
  match a with
  | toast_success _ | toast_error _ => true
  | _ => false
  end.

(** The notifications shown to the user, in order. *)
Definition toasts (l : list Event) : list Action :=
  filter is_toast (actions l).

(** The two kinds of entry of a log. *)
Definition did (a : Action) : Event := EAct (Sg := sg) a.
Definition asked (q : Request) : Event := EReq (Sg := sg) q.

(** The bodies of the create requests issued. *)
Definition created (l : list Event) : list AlertData :=
  flat_map (fun q => match q with createAlert d => [d] | _ => [] end)
           (requests l).

(** The hook's state once the actions of [l] have been applied to [s]. *)
Definition after (s : HookState) (l : list Event) : HookState :=
  replay (Sg := sg) handle s l.

(** A response as it reaches the hook: the request and how it settled. *)
Definition Applied : Type := { q : Request & Outcome (Response q) }.

Definition response_of (w : World) (e : LoopEvent) : list Applied :=
  match e with
  | ev_response i srv =>
      match nth_error (inflight (loop w)) i with
      | Some pd => [existT _ (request pd) (srv (request pd))]
      | None => []
      end
  | _ => []
  end.

(** The responses applied along a run of the loop, oldest first. *)
Fixpoint applied (w : World) (es : list LoopEvent) : list Applied :=
  match es with
  | [] => []
  | e :: es' => response_of w e ++ applied (step w e) es'
  end.

(** The alert a response carries, if it carries one. *)
Definition carried (r : Applied) : option Alert :=
  match r with
  | existT _ getActiveAlert (Fulfilled d) => d
  | existT _ (createAlert _) (Fulfilled a) => Some a
  | existT _ (updateAlert _ _) (Fulfilled a) => Some a
  | _ => None
  end.

(** What a response writes to the active-alert slot, if anything: a poll
    writes what it found; a create, an acknowledgement or a location update
    writes the server's alert; a resolve update writes null; a failure, a
    history response and an address write nothing. *)
Definition written (r : Applied) : option (option Alert) :=
  match r with
  | existT _ getActiveAlert (Fulfilled d) => Some d
  | existT _ (createAlert _) (Fulfilled a) => Some (Some a)
  | existT _ (updateAlert _ u) (Fulfilled a) =>
      match u_status u with
      | Some resolved => Some None
      | _ => Some (Some a)
      end
  | _ => None
  end.

(** The slot after a list of responses: each write replaces what was
    there. *)
Definition last_written (cur : option Alert) (rs : list Applied) : option Alert :=
  fold_left (fun cur r => match written r with Some v => v | None => cur end)
            rs cur.

(** *** Invariants of the loop *)

Definition any_outcome (q : Request) (o : Outcome (Response q)) : Prop := True.

(** The code that runs on a response writes to the slot what [written]
    says of that response, from whatever state it starts in, and it does so
    by a call of setActiveAlert. *)
Definition writes_as_stated (q : Request) (o : Outcome (Response q))
  (p : Async unit) : Prop :=
  (forall s,
      activeAlert (sync (Sg := sg) handle p s)
      = match written (existT _ q o) with
        | Some v => v
        | None => activeAlert s
        end) /\
  (forall v,
      written (existT _ q o) = Some v ->
      In (EAct (Sg := sg) (setActiveAlert v)) (segment p)).

Definition lawful (p : Async unit) : Prop :=
  hereditarily (Sg := sg) any_outcome writes_as_stated p.

Definition lawful_world (w : World) : Prop :=
  Forall (tame (Sg := sg) any_outcome writes_as_stated) (inflight (loop w)).

(** Once unmounted, the interval is not running. *)
Definition interval_cleared (w : World) : Prop :=
  match phase w with
  | fresh => interval_running w = false /\ pollIntervalRef w = None
  | mounted => pollIntervalRef w <> None
  | unmounted => interval_running w = false
  end.

(** *** A scenario to try the hook on *)

Definition lisbon : Location :=
  {| lat := 38.72%float; lng := (-9.14)%float; address := None |}.

Definition alert7 : Alert :=
  {| id := 7; status := active; is_test := Some false;
     timestamp := "2025-03-01T10:00:00Z";
     resolved_at := None; resolved_by := None; notes := None;
     location := Some lisbon; battery_level := None;
     connection_status := Some "online" |}.

Definition alert7_acknowledged : Alert :=
  {| id := 7; status := acknowledged; is_test := Some false;
     timestamp := "2025-03-01T10:00:00Z";
     resolved_at := None; resolved_by := None; notes := None;
     location := Some lisbon; battery_level := None;
     connection_status := Some "online" |}.

Definition alert7_resolved : Alert :=
  {| id := 7; status := resolved; is_test := Some false;
     timestamp := "2025-03-01T10:00:00Z";
     resolved_at := Some "2025-03-01T10:05:00Z";
     resolved_by := Some "Caregiver"; notes := Some "";
     location := Some lisbon; battery_level := None;
     connection_status := Some "online" |}.

(** A server that holds alert 7 and answers every request. *)
Definition up : Server :=
  fun q =>
    match q as q0 return Outcome (Response q0) with
    | getActiveAlert => Fulfilled (Some alert7)
    | getAlerts _ _ => Fulfilled (Some [])
    | createAlert _ => Fulfilled alert7
    | updateAlert _ u =>
        match u_status u with
        | Some resolved => Fulfilled alert7_resolved
        | Some acknowledged => Fulfilled alert7_acknowledged
        | _ => Fulfilled alert7
        end
    | clearHistoryReq => Fulfilled tt
    | reverseGeocode _ _ => Fulfilled (Some "Praca do Comercio, Lisboa")
    end.

(** The same server when no address can be found. *)
Definition up_without_geocoder : Server :=
  fun q =>
    match q as q0 return Outcome (Response q0) with
    | reverseGeocode _ _ => Rejected "geocoder unavailable"
    | q0 => up q0
    end.

(** A server that cannot be reached. *)
Definition down : Server := fun q => Rejected "Network Error".

Definition showing_alert7 : HookState :=
  {| activeAlert := Some alert7; alertHistory := [];
     isLoading := false; isTestMode := false; loadData_waiting := 0 |}.

End SOSAlerts.

(** ** The reset-password form: ResetPassword.handleSubmit *)

Module ResetPassword.
Import JS Async Async.Notations.
Local Open Scope async_scope.

(** import.meta.env *)
Record Env : Type := {
  VITE_API_URL : option string;
  VITE_BASE_URL : option string
}.

(** The JSON body of the request. *)
Record Body : Type := {
  b_token : string;
  new_password : string
}.

(** What the code reads of fetch's response, and of its JSON. *)
Record HttpResponse : Type := { ok : bool }.
Record Data : Type := { detail : option string }.

Inductive Request : Type :=
| fetch_post_json (url : string) (body : Body)
| response_json.

Definition Response (q : Request) : Type :=
  match q with
  | fetch_post_json _ _ => HttpResponse
  | response_json => Data
  end.

(** An [Error]: the code reads its [message]. *)
Record error : Type := { message : string }.

Inductive Action : Type :=
| preventDefault
| setIsLoading (v : bool)
| toast_error (msg : string)
| toast_success (msg : string)
| console_error (msg : string) (e : error)
(* setTimeout(() => navigate(path), ms) *)
| setTimeout_navigate (path : string) (ms : Z).

Definition sg : Sig :=
  {| Act := Action; Req := Request; Resp := Response; Err := error |}.

Definition Async (R : Type) : Type := Async.t sg R.
Definition Server : Type := Async.Server sg.
Definition await (q : Request) : Async (Response q) := Async.await (Sg := sg) q.
Definition perform (a : Action) : Async unit := Async.perform (Sg := sg) a.
Definition throw {A} (e : error) : Async A := Async.Throw (Sg := sg) e.

(** handleSubmit, lines 40-83; [password], [confirmPassword] and [token]
    are the state the handler closed over. *)
Definition handleSubmit (env : Env) (password confirmPassword token : string)
  : Async unit :=
  perform preventDefault ;;;
  if negb (String.eqb password confirmPassword) then
    perform (toast_error "Passwords do not match")
  else if (String.length password <? 6)%nat then
    perform (toast_error "Password must be at least 6 characters")
  else
    perform (setIsLoading true) ;;;
    try_finally
      (try_catch
         (let API_URL :=
            or_default (VITE_API_URL env)
              (or_default (VITE_BASE_URL env) "http://localhost:8000") in
          response <- await (fetch_post_json
                               (API_URL ++ "/auth/reset-password")
                               {| b_token := token; new_password := password |}) ;;
          data <- await response_json ;;
          (if negb (ok response) then
             throw {| message := or_default (detail data) "Failed to reset password" |}
           else Ret tt) ;;;
          perform (toast_success "Password reset successfully!") ;;;
          perform (setTimeout_navigate "/login" 2000))
         (fun err =>
            perform (console_error "Reset password error:" err) ;;;
            let errorMessage :=
              or_default (Some (message err))
                         "Failed to reset password. Please try again." in
            perform (toast_error errorMessage)))
      (perform (setIsLoading false)).

(** The two kinds of entry of a log. *)
Definition did (a : Action) : Async.Event sg := EAct (Sg := sg) a.
Definition asked (q : Request) : Async.Event sg := EReq (Sg := sg) q.

(** Servers to try the form on: one that accepts the new password, one
    that cannot be reached. *)
Definition accepting : Server :=
  fun q =>
    match q as q0 return Outcome error (Response q0) with
    | fetch_post_json _ _ => Fulfilled {| ok := true |}
    | response_json => Fulfilled {| detail := None |}
    end.

Definition unreachable : Server :=
  fun q => Rejected {| message := "Failed to fetch" |}.

Definition no_env : Env := {| VITE_API_URL := None; VITE_BASE_URL := None |}.

End ResetPassword.

(** ** The confidence overlay of the face-recognition page *)

Module FaceRecognition.
Import JS.

(** The response of /face/recognize. *)
Record Recognition : Type := {
  name : string;
  relation : string;
  confidence : number
}.

(** *** Number.prototype.toFixed *)

Definition digits (n : N) : string := NilZero.string_of_uint (N.to_uint n).

Fixpoint zeros (k : nat) : string :=
  match k with
  | O => ""
  | S k' => String "0" (zeros k')
  end.

(** The decimal digits of [n], with a point before the last [f] of them. *)
Definition place (f : nat) (n : N) : string :=
  let m := digits n in
  match f with
  | O => m
  | _ =>
      let m := if (String.length m <=? f)%nat
               then zeros (f + 1 - String.length m) ++ m
               else m in
      let k := String.length m in
      substring 0 (k - f) m ++ "." ++ substring (k - f) f m
  end.

(** The integer [n] for which [n / 10^f] is closest to [m * 2^e], the
    larger one when two are as close. *)
Definition nearest (f : nat) (m : positive) (e : Z) : N :=
  let scaled := (Z.pos m * 10 ^ Z.of_nat f)%Z in
  if (0 <=? e)%Z then Z.to_N (scaled * 2 ^ e)
  else let d := (2 ^ (- e))%Z in
       Z.to_N ((2 * scaled + d) / (2 * d)).

(** [m * 2^e >= 10^21] *)
Definition huge (m : positive) (e : Z) : bool :=
  if (0 <=? e)%Z then (10 ^ 21 <=? Z.pos m * 2 ^ e)%Z
  else (10 ^ 21 * 2 ^ (- e) <=? Z.pos m)%Z.

(** [x.toFixed(f)] for [0 <= f <= 100].  From [10^21] on the result is
    that of [String(x)], which is not modelled: [None]. *)
Definition toFixed (x : number) (f : nat) : option string :=
  match Prim2SF x with
  | S754_nan => Some "NaN"
  | S754_infinity false => Some "Infinity"
  | S754_infinity true => Some "-Infinity"
  | S754_zero _ => Some (place f 0)
  | S754_finite s m e =>
      if huge m e then None
      else Some ((if s then "-" else "") ++ place f (nearest f m e))
  end.

(** *** The overlay, lines 249-269 *)

Record Overlay : Type := {
  detected : string;
  relation_text : string;
  confidence_class : string;
  confidence_text : option string
}.

Definition success_color : string := "text-green-400".
Definition warning_color : string := "text-yellow-400".

Definition confidence_color (c : number) : string :=
  if PrimFloat.ltb 0.6%float c then success_color else warning_color.

(** Nothing is drawn while [recognitionResult] is null. *)
Definition overlay (recognitionResult : option Recognition) : option Overlay :=
  match recognitionResult with
  | None => None
  | Some r =>
      Some {| detected := name r;
              relation_text := relation r;
              confidence_class :=
                "text-lg font-mono " ++ confidence_color (confidence r);
              confidence_text :=
                option_map (fun m => m ++ "%")
                           (toFixed (PrimFloat.mul (confidence r) 100%float) 1) |}
  end.

End FaceRecognition.


(** ** Change tracking on the profile page: pages/ProfileSettings.jsx *)

Module ProfileSettings.
Import JS Async Async.Notations.
Local Open Scope async_scope.

(** *** Data *)

(** A field of a profile object as the page sees it: missing, null, or a
    string. *)
Inductive value : Type :=
| undefined
| null
| str (s : string).

(** [a !== b] *)
Definition strict_neq (a b : value) : bool :=
  match a, b with
  | undefined, undefined => false
  | null, null => false
  | str s, str s' => negb (String.eqb s s')
  | _, _ => true
  end.

#[export] Instance truthy_value : Truthy value :=
  fun v => match v with str s => truthy s | _ => false end.

(** [v || ''] *)
Definition or_empty (v : value) : value :=
  if truthy v then v else str "".

Record Profile : Type := {
  full_name : value;
  email : value;
  created_at : value;
  profile_image_url : value
}.

(** The last saved values of the tracked fields. *)
Record Original : Type := {
  o_full_name : value;
  o_email : value
}.

Record Message : Type := { m_type : string; m_text : string }.

(** A navigation held back: [-1] (one step back) or a route. *)
Inductive Nav : Type :=
| back
| route (path : string).

#[export] Instance truthy_Nav : Truthy Nav :=
  fun n => match n with back => true | route p => truthy p end.

(** The file picked in the image input: what the code reads of it. *)
Record File : Type := { f_type : string; f_size : Z }.

Record State : Type := {
  profile : Profile;
  originalProfile : Original;
  uploadingImage : bool;
  loading : bool;
  saving : bool;
  message : Message;
  hasUnsavedChanges : bool;
  showUnsavedModal : bool;
  pendingNavigation : option Nav;
  blockNavigationRef : bool;
  (* React's bookkeeping: a dependency of the change-tracking effect
     ([profile, originalProfile, loading]) was set since it last ran *)
  deps_changed : bool
}.

Definition initial_state : State :=
  {| profile := {| full_name := str ""; email := str "";
                   created_at := null; profile_image_url := null |};
     originalProfile := {| o_full_name := str ""; o_email := str "" |};
     uploadingImage := false;
     loading := true;
     saving := false;
     message := {| m_type := ""; m_text := "" |};
     hasUnsavedChanges := false;
     showUnsavedModal := false;
     pendingNavigation := None;
     blockNavigationRef := false;
     deps_changed := false |}.

(** *** The API the page calls (services/api) *)

Record ProfileUpdate : Type := { pu_full_name : value; pu_email : value }.

Inductive Request : Type :=
| getProfile
| updateProfile (body : ProfileUpdate)
| uploadProfileImage (photo : File)
| deleteProfileImage.

Definition Response (q : Request) : Type :=
  match q with
  | getProfile => Profile
  | updateProfile _ => unit
  | uploadProfileImage _ => Profile
  | deleteProfileImage => Profile
  end.

(** A failed call: [error.response?.data?.detail], when there is one. *)
Record error : Type := { detail : option string }.

(** *** Synchronous effects *)

Inductive Action : Type :=
| setProfile (v : Profile)
| setOriginalProfile (v : Original)
| setUploadingImage (v : bool)
| setLoading (v : bool)
| setSaving (v : bool)
| setMessage (v : Message)
| setHasUnsavedChanges (v : bool)
| setShowUnsavedModal (v : bool)
| setPendingNavigation (v : option Nav)
| set_blockNavigationRef (v : bool)
| navigate (to : Nav)
| dispatch_profileUpdated (detail : Profile)
| console_error (msg : string) (e : error)
(* setTimeout(() => setMessage({ type: '', text: '' }), 3000) *)
| setTimeout_clear_message
(* fileInputRef.current.value = '' *)
| reset_file_input
| history_pushState.

Definition handle (a : Action) (s : State) : State :=
  match a with
  | setProfile v =>
      {| profile := v; originalProfile := originalProfile s;
         uploadingImage := uploadingImage s; loading := loading s;
         saving := saving s; message := message s;
         hasUnsavedChanges := hasUnsavedChanges s;
         showUnsavedModal := showUnsavedModal s;
         pendingNavigation := pendingNavigation s;
         blockNavigationRef := blockNavigationRef s;
         deps_changed := true |}
  | setOriginalProfile v =>
      {| profile := profile s; originalProfile := v;
         uploadingImage := uploadingImage s; loading := loading s;
         saving := saving s; message := message s;
         hasUnsavedChanges := hasUnsavedChanges s;
         showUnsavedModal := showUnsavedModal s;
         pendingNavigation := pendingNavigation s;
         blockNavigationRef := blockNavigationRef s;
         deps_changed := true |}
  | setUploadingImage v =>
      {| profile := profile s; originalProfile := originalProfile s;
         uploadingImage := v; loading := loading s;
         saving := saving s; message := message s;
         hasUnsavedChanges := hasUnsavedChanges s;
         showUnsavedModal := showUnsavedModal s;
         pendingNavigation := pendingNavigation s;
         blockNavigationRef := blockNavigationRef s;
         deps_changed := deps_changed s |}
  | setLoading v =>
      {| profile := profile s; originalProfile := originalProfile s;
         uploadingImage := uploadingImage s; loading := v;
         saving := saving s; message := message s;
         hasUnsavedChanges := hasUnsavedChanges s;
         showUnsavedModal := showUnsavedModal s;
         pendingNavigation := pendingNavigation s;
         blockNavigationRef := blockNavigationRef s;
         (* a boolean set to the value it has is no change *)
         deps_changed := deps_changed s || negb (Bool.eqb v (loading s)) |}
  | setSaving v =>
      {| profile := profile s; originalProfile := originalProfile s;
         uploadingImage := uploadingImage s; loading := loading s;
         saving := v; message := message s;
         hasUnsavedChanges := hasUnsavedChanges s;
         showUnsavedModal := showUnsavedModal s;
         pendingNavigation := pendingNavigation s;
         blockNavigationRef := blockNavigationRef s;
         deps_changed := deps_changed s |}
  | setMessage v =>
      {| profile := profile s; originalProfile := originalProfile s;
         uploadingImage := uploadingImage s; loading := loading s;
         saving := saving s; message := v;
         hasUnsavedChanges := hasUnsavedChanges s;
         showUnsavedModal := showUnsavedModal s;
         pendingNavigation := pendingNavigation s;
         blockNavigationRef := blockNavigationRef s;
         deps_changed := deps_changed s |}
  | setHasUnsavedChanges v =>
      {| profile := profile s; originalProfile := originalProfile s;
         uploadingImage := uploadingImage s; loading := loading s;
         saving := saving s; message := message s;
         hasUnsavedChanges := v;
         showUnsavedModal := showUnsavedModal s;
         pendingNavigation := pendingNavigation s;
         blockNavigationRef := blockNavigationRef s;
         deps_changed := deps_changed s |}
  | setShowUnsavedModal v =>
      {| profile := profile s; originalProfile := originalProfile s;
         uploadingImage := uploadingImage s; loading := loading s;
         saving := saving s; message := message s;
         hasUnsavedChanges := hasUnsavedChanges s;
         showUnsavedModal := v;
         pendingNavigation := pendingNavigation s;
         blockNavigationRef := blockNavigationRef s;
         deps_changed := deps_changed s |}
  | setPendingNavigation v =>
      {| profile := profile s; originalProfile := originalProfile s;
         uploadingImage := uploadingImage s; loading := loading s;
         saving := saving s; message := message s;
         hasUnsavedChanges := hasUnsavedChanges s;
         showUnsavedModal := showUnsavedModal s;
         pendingNavigation := v;
         blockNavigationRef := blockNavigationRef s;
         deps_changed := deps_changed s |}
  | set_blockNavigationRef v =>
      {| profile := profile s; originalProfile := originalProfile s;
         uploadingImage := uploadingImage s; loading := loading s;
         saving := saving s; message := message s;
         hasUnsavedChanges := hasUnsavedChanges s;
         showUnsavedModal := showUnsavedModal s;
         pendingNavigation := pendingNavigation s;
         blockNavigationRef := v;
         deps_changed := deps_changed s |}
  | navigate _ | dispatch_profileUpdated _ | console_error _ _
  | setTimeout_clear_message | reset_file_input | history_pushState => s
  end.

Definition sg : Sig :=
  {| Act := Action; Req := Request; Resp := Response; Err := error |}.

Definition Async (R : Type) : Type := Async.t sg R.
Definition Server : Type := Async.Server sg.
Definition await (q : Request) : Async (Response q) := Async.await (Sg := sg) q.
Definition perform (a : Action) : Async unit := Async.perform (Sg := sg) a.

Definition no_message : Message := {| m_type := ""; m_text := "" |}.
Definition error_message (e : error) (fallback : string) : Message :=
  {| m_type := "error"; m_text := or_default (detail e) fallback |}.
Definition success_message (text : string) : Message :=
  {| m_type := "success"; m_text := text |}.

(** *** The change-tracking effect, lines 56-64 *)

Definition changed (p : Profile) (o : Original) : bool :=
  strict_neq (full_name p) (o_full_name o) || strict_neq (email p) (o_email o).

Definition track_changes (s : State) : State :=
  if negb (loading s) && strict_neq (o_full_name (originalProfile s)) undefined then
    handle (set_blockNavigationRef (changed (profile s) (originalProfile s)))
      (handle (setHasUnsavedChanges (changed (profile s) (originalProfile s))) s)
  else s.

(** After the handlers of an event have run, React renders once and runs
    the effect if one of its dependencies was set. *)
Definition flush (s : State) : State :=
  if deps_changed s then
    let s := track_changes s in
    {| profile := profile s; originalProfile := originalProfile s;
       uploadingImage := uploadingImage s; loading := loading s;
       saving := saving s; message := message s;
       hasUnsavedChanges := hasUnsavedChanges s;
       showUnsavedModal := showUnsavedModal s;
       pendingNavigation := pendingNavigation s;
       blockNavigationRef := blockNavigationRef s;
       deps_changed := false |}
  else s.

(** *** The handlers, in the order of the source

    A handler is a closure of the render it was made in: the state it
    reads is an argument here, and stays what it was across an [await]. *)

(** fetchProfile, lines 100-118 *)
Definition fetchProfile : Async unit :=
  try_finally
    (try_catch
       (perform (setLoading true) ;;;
        data <- await getProfile ;;
        perform (setProfile data) ;;;
        perform (setOriginalProfile
                   {| o_full_name := or_empty (full_name data);
                      o_email := or_empty (email data) |}) ;;;
        perform (dispatch_profileUpdated data))
       (fun e =>
          perform (console_error "Error fetching profile:" e) ;;;
          perform (setMessage {| m_type := "error";
                                 m_text := "Failed to load profile" |})))
    (perform (setLoading false)).

Definition go (to : Nav) : Async unit :=
  perform (navigate to) ;;;
  perform (setPendingNavigation None).

(** handleSave, lines 120-159 *)
Definition handleSave (profile : Profile) (pendingNavigation : option Nav)
    (shouldNavigate : bool) : Async unit :=
  try_finally
    (try_catch
       (perform (setSaving true) ;;;
        perform (setMessage no_message) ;;;
        _ <- await (updateProfile {| pu_full_name := full_name profile;
                                     pu_email := email profile |}) ;;
        perform (setOriginalProfile {| o_full_name := full_name profile;
                                       o_email := email profile |}) ;;;
        perform (setHasUnsavedChanges false) ;;;
        perform (set_blockNavigationRef false) ;;;
        perform (setMessage (success_message "Profile updated successfully!")) ;;;
        perform setTimeout_clear_message ;;;
        match pendingNavigation with
        | Some to => if shouldNavigate && truthy to then go to else Ret tt
        | None => Ret tt
        end)
       (fun e =>
          perform (console_error "Error updating profile:" e) ;;;
          perform (setMessage (error_message e "Failed to update profile"))))
    (perform (setSaving false)).

(** handleDiscard, lines 161-181 *)
Definition handleDiscard (profile : Profile) (originalProfile : Original)
    (pendingNavigation : option Nav) : Async unit :=
  perform (setProfile {| full_name := o_full_name originalProfile;
                         email := o_email originalProfile;
                         created_at := created_at profile;
                         profile_image_url := profile_image_url profile |}) ;;;
  perform (setHasUnsavedChanges false) ;;;
  perform (set_blockNavigationRef false) ;;;
  perform (setShowUnsavedModal false) ;;;
  match pendingNavigation with
  | Some to => if truthy to then go to else Ret tt
  | None => Ret tt
  end.

(** handleImageUpload, lines 238-280; [file] is [event.target.files?.[0]]. *)
Definition handleImageUpload (file : option File) : Async unit :=
  match file with
  | None => Ret tt
  | Some file =>
      if negb (String.prefix "image/" (f_type file)) then
        perform (setMessage {| m_type := "error";
                               m_text := "Please select an image file" |})
      else if (5 * 1024 * 1024 <? f_size file)%Z then
        perform (setMessage {| m_type := "error";
                               m_text := "Image size must be less than 5MB" |})
      else
        try_finally
          (try_catch
             (perform (setUploadingImage true) ;;;
              perform (setMessage no_message) ;;;
              data <- await (uploadProfileImage file) ;;
              perform (setProfile data) ;;;
              perform (setMessage (success_message "Profile image updated successfully!")) ;;;
              perform setTimeout_clear_message ;;;
              perform (dispatch_profileUpdated data))
             (fun e =>
                perform (console_error "Error uploading image:" e) ;;;
                perform (setMessage (error_message e "Failed to upload image"))))
          (perform (setUploadingImage false) ;;;
           perform reset_file_input)
  end.

(** handleDeleteImage, lines 282-303 *)
Definition handleDeleteImage : Async unit :=
  try_finally
    (try_catch
       (perform (setUploadingImage true) ;;;
        perform (setMessage no_message) ;;;
        data <- await deleteProfileImage ;;
        perform (setProfile data) ;;;
        perform (setMessage (success_message "Profile image removed successfully!")) ;;;
        perform setTimeout_clear_message ;;;
        perform (dispatch_profileUpdated data))
       (fun e =>
          perform (console_error "Error deleting image:" e) ;;;
          perform (setMessage (error_message e "Failed to delete image"))))
    (perform (setUploadingImage false)).

(** The inputs' onChange, lines 388 and 401 *)
Definition change_full_name (profile : Profile) (v : string) : Async unit :=
  perform (setProfile {| full_name := str v; email := email profile;
                         created_at := created_at profile;
                         profile_image_url := profile_image_url profile |}).

Definition change_email (profile : Profile) (v : string) : Async unit :=
  perform (setProfile {| full_name := full_name profile; email := str v;
                         created_at := created_at profile;
                         profile_image_url := profile_image_url profile |}).

(** handlePopState, lines 83-90 *)
Definition handlePopState (blockNavigationRef : bool) : Async unit :=
  if blockNavigationRef then
    perform history_pushState ;;;
    perform (setShowUnsavedModal true) ;;;
    perform (setPendingNavigation (Some back))
  else Ret tt.

(** *** The page as an event loop *)

Record World : Type := {
  loop : Loop sg State;
  was_mounted : bool
}.

Definition initial : World :=
  {| loop := {| state := initial_state; inflight := []; history := [] |};
     was_mounted := false |}.

Inductive UiEvent : Type :=
| ev_mount                              (* useEffect(() => { fetchProfile() }, []) *)
| ev_change_full_name (v : string)
| ev_change_email (v : string)
| ev_save_button                        (* onClick={() => handleSave(false)} *)
| ev_modal_save                         (* the modal's onSave *)
| ev_modal_discard                      (* onDiscard={handleDiscard} *)
| ev_modal_cancel                       (* the modal's onCancel *)
| ev_popstate                           (* the browser's back button *)
| ev_image_chosen (file : option File)
| ev_delete_image
| ev_response (i : nat) (srv : Server). (* a request in flight settles *)

Definition start (p : Async unit) (w : World) : World :=
  {| loop := advance (Sg := sg) handle p (loop w);
     was_mounted := was_mounted w |}.

(** What the handlers of an event do.  While [loading] the page shows a
    spinner only (line 313), the save button shows when there are unsaved
    changes and is disabled while saving, the modal's buttons show while
    it is open, and the popstate listener is registered while there are
    unsaved changes. *)
Definition dispatch (w : World) (e : UiEvent) : World :=
  let s := state (loop w) in
  match e with
  | ev_mount =>
      if was_mounted w then w
      else {| loop := advance (Sg := sg) handle fetchProfile (loop w);
              was_mounted := true |}
  | ev_change_full_name v =>
      if loading s then w else start (change_full_name (profile s) v) w
  | ev_change_email v =>
      if loading s then w else start (change_email (profile s) v) w
  | ev_save_button =>
      if negb (loading s) && hasUnsavedChanges s && negb (saving s)
      then start (handleSave (profile s) (pendingNavigation s) false) w
      else w
  | ev_modal_save =>
      if negb (loading s) && showUnsavedModal s
      then start (perform (setShowUnsavedModal false) ;;;
                  handleSave (profile s) (pendingNavigation s) true) w
      else w
  | ev_modal_discard =>
      if negb (loading s) && showUnsavedModal s
      then start (handleDiscard (profile s) (originalProfile s)
                                (pendingNavigation s)) w
      else w
  | ev_modal_cancel =>
      if negb (loading s) && showUnsavedModal s
      then start (perform (setShowUnsavedModal false) ;;;
                  perform (setPendingNavigation None)) w
      else w
  | ev_popstate =>
      if hasUnsavedChanges s then start (handlePopState (blockNavigationRef s)) w
      else w
  | ev_image_chosen file =>
      if loading s || uploadingImage s then w else start (handleImageUpload file) w
  | ev_delete_image =>
      (* the Delete button shows when there is an image *)
      if loading s || uploadingImage s
         || negb (truthy (profile_image_url (profile s)))
      then w else start handleDeleteImage w
  | ev_response i srv =>
      {| loop := settle (Sg := sg) handle i srv (loop w);
         was_mounted := was_mounted w |}
  end.

Definition render (w : World) : World :=
  {| loop := {| state := flush (state (loop w));
                inflight := inflight (loop w);
                history := history (loop w) |};
     was_mounted := was_mounted w |}.

Definition step (w : World) (e : UiEvent) : World := render (dispatch w e).

Definition steps (w : World) (es : list UiEvent) : World :=
  fold_left step es w.

(** *** Invariants of the page *)

(** A profile object sent by the server has a full_name (which may be
    null): the key is never missing. *)
Definition well_formed (q : Request) : Outcome error (Response q) -> Prop :=
match q with
| getProfile | uploadProfileImage _ | deleteProfileImage =>
    fun o => match o with
             | Fulfilled data => full_name data <> undefined
             | Rejected _ => True
             end
| updateProfile _ => fun _ => True
end.

Definition well_formed_event (e : UiEvent) : Prop :=
match e with
| ev_response _ srv => forall q, well_formed q (srv q)
| _ => True
end.

(** The page is loaded, the effect has run on what it shows, and the flag
    is what the effect computes. *)
Definition settled (s : State) : Prop :=
loading s = false /\
deps_changed s = false /\
full_name (profile s) <> undefined /\
o_full_name (originalProfile s) <> undefined /\
hasUnsavedChanges s = changed (profile s) (originalProfile s).

(** The code that runs on a response, and the render that follows it,
    keep the page settled. *)
Definition keeps_settled (q : Request) (o : Outcome error (Response q))
  (p : Async unit) : Prop :=
forall s, settled s -> settled (flush (sync (Sg := sg) handle p s)).

Definition settled_world (w : World) : Prop :=
settled (state (loop w)) /\
Forall (tame (Sg := sg) well_formed keeps_settled) (inflight (loop w)) /\
was_mounted w = true.

(** The same of the code a handler runs before its first [await], and of
    all that may follow it. *)
Definition keeps_settled_now (p : Async unit) : Prop :=
forall s, settled s -> settled (flush (sync (Sg := sg) handle p s)).

Definition steady (p : Async unit) : Prop :=
hereditarily (Sg := sg) well_formed keeps_settled p.

(** The page either still waits for its first response, or is settled. *)
Definition page_invariant (w : World) : Prop :=
w = initial \/ w = step initial ev_mount \/ settled_world w.

(** The state once the actions of [l] have been applied to [s]. *)
Definition after (s : State) (l : list (Async.Event sg)) : State :=
replay (Sg := sg) handle s l.

(** *** A scenario to try the page on *)

Definition jane : Profile :=
{| full_name := str "Jane Doe"; email := str "jane@example.com";
   created_at := str "2024-11-05T09:30:00Z"; profile_image_url := null |}.

(** A server that holds Jane's profile and accepts every change. *)
Definition up : Server :=
fun q =>
  match q as q0 return Outcome error (Response q0) with
  | getProfile => Fulfilled jane
  | updateProfile _ => Fulfilled tt
  | uploadProfileImage _ => Fulfilled jane
  | deleteProfileImage => Fulfilled jane
  end.

(** A server that turns every request down. *)
Definition down : Server :=
fun q => Rejected {| detail := Some "Service unavailable" |}.

(** A server whose profile objects lack the full_name key. *)
Definition nameless : Server :=
fun q =>
  match q as q0 return Outcome error (Response q0) with
  | getProfile =>
      Fulfilled {| full_name := undefined; email := str "jane@example.com";
                   created_at := null; profile_image_url := null |}
  | q0 => up q0
  end.

End ProfileSettings.

(** ** More of the alert hook: the history, test mode, getAlertDuration *)

Module SOSAlertsMore.
Import JS Async Async.Notations SOSAlerts.
Local Open Scope async_scope.

(** What a response writes to the alert history, if anything: a history
    fetch that succeeds writes the list it carries (the empty list when it
    carries none), a clear that succeeds writes the empty list. *)
Definition written_history (r : Applied) : option (list Alert) :=
  match r with
  | existT _ (getAlerts _ _) (Fulfilled d) =>
      Some (match d with Some l => l | None => [] end)
  | existT _ clearHistoryReq (Fulfilled _) => Some []
  | _ => None
  end.

Definition last_history (cur : list Alert) (rs : list Applied) : list Alert :=
  fold_left (fun cur r => match written_history r with Some v => v | None => cur end)
            rs cur.

(** The response an event applies, if it applies one. *)
Definition response_at (w : World) (e : LoopEvent) : option Applied :=
  match response_of w e with
  | r :: _ => Some r
  | [] => None
  end.

(** *** Relations every event of the loop respects

    [R None s s'] relates the states before and after code that runs on no
    response (a mount, a tick, the start of a call); [R (Some r) s s'] those
    before and after the code that runs on the response [r]. *)
Section Relations.
Variable R : option Applied -> HookState -> HookState -> Prop.

Definition keeps (q : Request) (o : Outcome (Response q)) (p : Async unit) : Prop :=
  forall s, R (Some (existT _ q o)) s (sync (Sg := sg) handle p s).

Definition safe (p : Async unit) : Prop :=
  (forall s, R None s (sync (Sg := sg) handle p s)) /\
  hereditarily (Sg := sg) any_outcome keeps p.

Definition safe_world (w : World) : Prop :=
  Forall (tame (Sg := sg) any_outcome keeps) (inflight (loop w)).

(** All the code the loop can start. *)
Definition safe_hook : Prop :=
  (forall s, R None s s) /\
  safe fetchActiveAlert /\
  safe (perform (setIsLoading true) ;;; perform (promise_all 2)) /\
  safe (fetchActiveAlert ;;; perform promise_all_arrive) /\
  safe (fetchAlertHistory ;;; perform promise_all_arrive) /\
  (forall op s, safe (invoke op s)).

End Relations.

(** Test mode is on only while an alert is held. *)
Definition test_mode_sound (s : HookState) : Prop :=
  isTestMode s = true -> exists a, activeAlert s = Some a.

Definition keeps_test_mode (r : option Applied) (s s' : HookState) : Prop :=
  test_mode_sound s -> test_mode_sound s'.

Definition history_as_written (r : option Applied) (s s' : HookState) : Prop :=
  alertHistory s'
  = match r with
    | Some r => match written_history r with
                | Some v => v
                | None => alertHistory s
                end
    | None => alertHistory s
    end.

(** *** getAlertDuration, lines 210-226

    A Date is its time value, a whole number of milliseconds, or nothing
    when the date is invalid (NaN).  Time values and the numbers computed
    from them here are integers below 2^53, on which the source's double
    arithmetic ([-], [/] under [Math.floor], [%]) is exact. *)
Section Duration.
(* new Date(s).getTime() *)
Variable Date_parse : string -> option Z.
(* new Date().getTime() *)
Variable now : Z.

(** A whole number in a template literal. *)
Definition show (z : Z) : string := NilZero.string_of_int (Z.to_int z).

(** [alert.resolved_at ? new Date(alert.resolved_at) : new Date()] *)
Definition end_time (alert : Alert) : option Z :=
  match resolved_at alert with
  | Some r => if truthy r then Date_parse r else Some now
  | None => Some now
  end.

Definition getAlertDuration (alert : option Alert) : string :=
  match alert with
  | None => ""
  | Some alert =>
      match Date_parse (timestamp alert), end_time alert with
      | Some start, Some stop =>
          let diffMs := (stop - start)%Z in
          let diffMins := (diffMs / 60000)%Z in
          let diffHours := (diffMins / 60)%Z in
          if (0 <? diffHours)%Z then
            show diffHours ++ "h " ++ show (Z.rem diffMins 60) ++ "m"
          else if (0 <? diffMins)%Z then
            show diffMins ++ "m"
          else "Less than 1m"
      | _, _ =>
          (* NaN: both comparisons are false *)
          "Less than 1m"
      end
  end.

End Duration.

(** A clock for the examples: ISO dates of 1 March 2025, 10:00 to 12:05. *)
Definition parse_example (s : string) : option Z :=
  if String.eqb s "2025-03-01T10:00:00Z" then Some 1740823200000%Z
  else if String.eqb s "2025-03-01T10:05:00Z" then Some 1740823500000%Z
  else if String.eqb s "2025-03-01T12:05:30Z" then Some 1740830730000%Z
  else None.

(** A server that holds a test alert. *)
Definition test_alert : Alert :=
  {| id := 8; status := active; is_test := Some true;
     timestamp := "2025-03-01T10:00:00Z";
     resolved_at := None; resolved_by := None; notes := None;
     location := None; battery_level := None;
     connection_status := Some "online" |}.

Definition testing : Server :=
  fun q =>
    match q as q0 return Outcome (Response q0) with
    | getActiveAlert => Fulfilled (Some test_alert)
    | createAlert _ => Fulfilled test_alert
    | updateAlert _ _ => Fulfilled test_alert
    | q0 => up q0
    end.

End SOSAlertsMore.

(** ** More of the profile page: the unload guard *)

Module ProfileSettingsMore.
Import JS Async Async.Notations ProfileSettings.
Local Open Scope async_scope.

(** *** handleBeforeUnload, lines 68-73 *)

Inductive UnloadAction : Type :=
| preventDefault
| set_returnValue (v : string).

(** What the handler does to the beforeunload event: a non-empty list
    makes the browser ask before it leaves the page. *)
Definition handleBeforeUnload (blockNavigationRef : bool) : list UnloadAction :=
  if blockNavigationRef then [preventDefault; set_returnValue ""] else [].

(** The ref the unload guard reads follows the flag, and the effect has run. *)
Definition guard_synced (s : State) : Prop :=
  blockNavigationRef s = hasUnsavedChanges s /\ deps_changed s = false.

Definition any_outcome (q : Request) (o : Outcome error (Response q)) : Prop := True.

Definition keeps_synced (q : Request) (o : Outcome error (Response q))
  (p : Async unit) : Prop :=
  forall s, guard_synced s -> guard_synced (flush (sync (Sg := sg) handle p s)).

Definition synced_world (w : World) : Prop :=
  guard_synced (state (loop w)) /\
  Forall (tame (Sg := sg) any_outcome keeps_synced) (inflight (loop w)).

(** The same of a handler: of the code it runs at once, and of all that
    may follow its awaits. *)
Definition syncs (p : Async unit) : Prop :=
  (forall s, guard_synced s -> guard_synced (flush (sync (Sg := sg) handle p s))) /\
  hereditarily (Sg := sg) any_outcome keeps_synced p.

(** The calls of [navigate] in a log, in order. *)
Definition navigations (l : list (Async.Event sg)) : list Nav :=
  flat_map (fun e : Async.Event sg =>
              match e with
              | EAct a => match a with navigate to => [to] | _ => [] end
              | EReq _ => []
              end) l.

(** A field that holds a string. *)
Definition is_str (v : value) : bool :=
  match v with str _ => true | _ => false end.

(** A profile whose full_name is null, as a server may send it. *)
Definition unnamed : Server :=
  fun q =>
    match q as q0 return Outcome error (Response q0) with
    | getProfile =>
        Fulfilled {| full_name := null; email := str "jane@example.com";
                     created_at := null; profile_image_url := null |}
    | q0 => up q0
    end.

End ProfileSettingsMore.

(** ** The account modals of the profile page, lines 183-236 *)

Module AccountModals.
Import JS Async Async.Notations ProfileSettings.
Local Open Scope async_scope.

Record PasswordData : Type := {
  current_password : string;
  new_password : string;
  confirm_password : string
}.

Record ShowPasswords : Type := {
  show_current : bool;
  show_new : bool;
  show_confirm : bool
}.

Record ModalState : Type := {
  m_message : Message;
  m_saving : bool;
  showPasswordModal : bool;
  passwordData : PasswordData;
  showPasswords : ShowPasswords;
  deleteConfirmText : string;
  (* localStorage.getItem('token') *)
  stored_token : option string;
  (* window.location.href, once the handler has set it *)
  location_href : option string
}.

Record PasswordChange : Type := {
  pc_current_password : string;
  pc_new_password : string
}.

Inductive Request : Type :=
| changePassword (body : PasswordChange)
| deleteAccount.

Definition Response (q : Request) : Type := unit.

Inductive Action : Type :=
| setMessage (v : Message)
| setSaving (v : bool)
| setShowPasswordModal (v : bool)
| setPasswordData (v : PasswordData)
| setShowPasswords (v : ShowPasswords)
| console_error (msg : string) (e : error)
| setTimeout_clear_message
| localStorage_removeItem (key : string)
| set_location_href (url : string).

Definition handle (a : Action) (s : ModalState) : ModalState :=
  match a with
  | setMessage v =>
      {| m_message := v; m_saving := m_saving s;
         showPasswordModal := showPasswordModal s;
         passwordData := passwordData s; showPasswords := showPasswords s;
         deleteConfirmText := deleteConfirmText s;
         stored_token := stored_token s; location_href := location_href s |}
  | setSaving v =>
      {| m_message := m_message s; m_saving := v;
         showPasswordModal := showPasswordModal s;
         passwordData := passwordData s; showPasswords := showPasswords s;
         deleteConfirmText := deleteConfirmText s;
         stored_token := stored_token s; location_href := location_href s |}
  | setShowPasswordModal v =>
      {| m_message := m_message s; m_saving := m_saving s;
         showPasswordModal := v;
         passwordData := passwordData s; showPasswords := showPasswords s;
         deleteConfirmText := deleteConfirmText s;
         stored_token := stored_token s; location_href := location_href s |}
  | setPasswordData v =>
      {| m_message := m_message s; m_saving := m_saving s;
         showPasswordModal := showPasswordModal s;
         passwordData := v; showPasswords := showPasswords s;
         deleteConfirmText := deleteConfirmText s;
         stored_token := stored_token s; location_href := location_href s |}
  | setShowPasswords v =>
      {| m_message := m_message s; m_saving := m_saving s;
         showPasswordModal := showPasswordModal s;
         passwordData := passwordData s; showPasswords := v;
         deleteConfirmText := deleteConfirmText s;
         stored_token := stored_token s; location_href := location_href s |}
  | localStorage_removeItem key =>
      {| m_message := m_message s; m_saving := m_saving s;
         showPasswordModal := showPasswordModal s;
         passwordData := passwordData s; showPasswords := showPasswords s;
         deleteConfirmText := deleteConfirmText s;
         stored_token := if String.eqb key "token" then None else stored_token s;
         location_href := location_href s |}
  | set_location_href url =>
      {| m_message := m_message s; m_saving := m_saving s;
         showPasswordModal := showPasswordModal s;
         passwordData := passwordData s; showPasswords := showPasswords s;
         deleteConfirmText := deleteConfirmText s;
         stored_token := stored_token s; location_href := Some url |}
  | console_error _ _ | setTimeout_clear_message => s
  end.

Definition modal_sg : Sig :=
  {| Act := Action; Req := Request; Resp := Response; Err := error |}.

Definition Modal (R : Type) : Type := Async.t modal_sg R.
Definition ModalServer : Type := Async.Server modal_sg.
Definition call (q : Request) : Modal (Response q) := Async.await (Sg := modal_sg) q.
Definition act (a : Action) : Modal unit := Async.perform (Sg := modal_sg) a.

Definition after (s : ModalState) (l : list (Async.Event modal_sg)) : ModalState :=
  replay (Sg := modal_sg) handle s l.

Definition no_passwords : PasswordData :=
  {| current_password := ""; new_password := ""; confirm_password := "" |}.

Definition none_shown : ShowPasswords :=
  {| show_current := false; show_new := false; show_confirm := false |}.

(** handleChangePassword, lines 183-217 *)
Definition handleChangePassword (passwordData : PasswordData) : Modal unit :=
  if negb (String.eqb (new_password passwordData) (confirm_password passwordData)) then
    act (setMessage {| m_type := "error"; m_text := "New passwords do not match" |})
  else if (String.length (new_password passwordData) <? 6)%nat then
    act (setMessage {| m_type := "error";
                       m_text := "Password must be at least 6 characters" |})
  else
    try_finally
      (try_catch
         (act (setSaving true) ;;;
          act (setMessage no_message) ;;;
          _ <- call (changePassword
                       {| pc_current_password := current_password passwordData;
                          pc_new_password := new_password passwordData |}) ;;
          act (setMessage (success_message "Password changed successfully!")) ;;;
          act (setShowPasswordModal false) ;;;
          act (setPasswordData no_passwords) ;;;
          act (setShowPasswords none_shown) ;;;
          act setTimeout_clear_message)
         (fun e =>
            act (console_error "Error changing password:" e) ;;;
            act (setMessage (error_message e "Failed to change password"))))
      (act (setSaving false)).

(** handleDeleteAccount, lines 219-236 *)
Definition handleDeleteAccount (deleteConfirmText : string) : Modal unit :=
  if negb (String.eqb deleteConfirmText "DELETE") then
    act (setMessage {| m_type := "error";
                       m_text := "Please type DELETE to confirm" |})
  else
    try_catch
      (_ <- call deleteAccount ;;
       act (localStorage_removeItem "token") ;;;
       act (set_location_href "/login"))
      (fun e =>
         act (console_error "Error deleting account:" e) ;;;
         act (setMessage (error_message e "Failed to delete account"))).

(** The Delete Account button, line 706: [disabled={deleteConfirmText !== 'DELETE'}] *)
Definition delete_button_disabled (deleteConfirmText : string) : bool :=
  negb (String.eqb deleteConfirmText "DELETE").

Definition accepts : ModalServer := fun q => Fulfilled tt.
Definition refuses : ModalServer :=
  fun q => Rejected {| detail := Some "Current password is incorrect" |}.

Definition signed_in (text : string) : ModalState :=
  {| m_message := no_message; m_saving := false; showPasswordModal := false;
     passwordData := no_passwords; showPasswords := none_shown;
     deleteConfirmText := text;
     stored_token := Some "eyJhbGciOi"; location_href := None |}.

End AccountModals.

(** ** The registration form and the recognition tick of the face page *)

Module FacePage.
Import JS Async Async.Notations FaceRecognition.
Local Open Scope async_scope.

(** import.meta.env *)
Record Env : Type := { VITE_API_BASE_URL : option string }.

(** A value in a template literal: a missing one reads "undefined". *)
Definition interpolate (v : option string) : string :=
  match v with Some s => s | None => "undefined" end.

(** The picked image and a captured frame: what the code reads of them. *)
Record Image : Type := { file_name : string }.
Record Blob : Type := { blob_size : Z }.

Record Status : Type := { st_type : string; st_message : string }.

Record Registered : Type := { r_name : string; r_relation : string }.

(** The video element: what the tick reads of it. *)
Record Video : Type := {
  paused : bool;
  ended : bool;
  videoWidth : Z;
  videoHeight : Z
}.

Record PageState : Type := {
  name_field : string;
  relation_field : string;
  file : option Image;
  regStatus : Status;
  isRegistering : bool;
  recognitionResult : option Recognition
}.

Inductive Request : Type :=
| post_register (url : string) (name relation : string) (file : Image)
| canvas_toBlob (width height : Z)
| post_recognize (url : string) (frame : Blob).

Definition Response (q : Request) : Type :=
  match q with
  | post_register _ _ _ _ => Registered
  | canvas_toBlob _ _ => option Blob
  | post_recognize _ _ => Recognition
  end.

(** A failed call: [err.response?.data?.detail], when there is one. *)
Record error : Type := { detail : option string }.

Inductive Action : Type :=
| event_preventDefault
| setName (v : string)
| setRelation (v : string)
| setFile (v : option Image)
| setRegStatus (v : Status)
| setIsRegistering (v : bool)
| setRecognitionResult (v : option Recognition)
| console_error (msg : string) (e : error)
(* canvas.width = w; canvas.height = h; context.drawImage(video, ...) *)
| draw_frame (width height : Z).

Definition handle (a : Action) (s : PageState) : PageState :=
  match a with
  | setName v =>
      {| name_field := v; relation_field := relation_field s; file := file s;
         regStatus := regStatus s; isRegistering := isRegistering s;
         recognitionResult := recognitionResult s |}
  | setRelation v =>
      {| name_field := name_field s; relation_field := v; file := file s;
         regStatus := regStatus s; isRegistering := isRegistering s;
         recognitionResult := recognitionResult s |}
  | setFile v =>
      {| name_field := name_field s; relation_field := relation_field s; file := v;
         regStatus := regStatus s; isRegistering := isRegistering s;
         recognitionResult := recognitionResult s |}
  | setRegStatus v =>
      {| name_field := name_field s; relation_field := relation_field s;
         file := file s;
         regStatus := v; isRegistering := isRegistering s;
         recognitionResult := recognitionResult s |}
  | setIsRegistering v =>
      {| name_field := name_field s; relation_field := relation_field s;
         file := file s;
         regStatus := regStatus s; isRegistering := v;
         recognitionResult := recognitionResult s |}
  | setRecognitionResult v =>
      {| name_field := name_field s; relation_field := relation_field s;
         file := file s;
         regStatus := regStatus s; isRegistering := isRegistering s;
         recognitionResult := v |}
  | event_preventDefault | console_error _ _ | draw_frame _ _ => s
  end.

Definition sg : Sig :=
  {| Act := Action; Req := Request; Resp := Response; Err := error |}.

Definition Async (R : Type) : Type := Async.t sg R.
Definition Server : Type := Async.Server sg.
Definition await (q : Request) : Async (Response q) := Async.await (Sg := sg) q.
Definition perform (a : Action) : Async unit := Async.perform (Sg := sg) a.

Definition after (s : PageState) (l : list (Async.Event sg)) : PageState :=
  replay (Sg := sg) handle s l.

#[export] Instance truthy_Image : Truthy Image := fun _ => true.
#[export] Instance truthy_Blob : Truthy Blob := fun _ => true.

(** handleRegister, lines 63-92; [name], [relation] and [file] are the
    state the handler closed over. *)
Definition handleRegister (env : Env) (name relation : string) (file : option Image)
  : Async unit :=
  perform event_preventDefault ;;;
  match file with
  | Some f =>
      if negb (truthy name) || negb (truthy relation) then
        perform (setRegStatus {| st_type := "error";
                                 st_message := "Please fill all fields and select an image." |})
      else
        perform (setIsRegistering true) ;;;
        perform (setRegStatus {| st_type := ""; st_message := "" |}) ;;;
        try_finally
          (try_catch
             (data <- await (post_register
                               (interpolate (VITE_API_BASE_URL env) ++ "/face/register")
                               name relation f) ;;
              perform (setRegStatus
                         {| st_type := "success";
                            st_message := "Successfully registered " ++ r_name data ++ "!" |}) ;;;
              perform (setName "") ;;;
              perform (setRelation "") ;;;
              perform (setFile None))
             (fun err =>
                perform (console_error "" err) ;;;
                perform (setRegStatus
                           {| st_type := "error";
                              st_message := or_default (detail err) "Registration failed." |})))
          (perform (setIsRegistering false))
  | None =>
      perform (setRegStatus {| st_type := "error";
                               st_message := "Please fill all fields and select an image." |})
  end.

(** captureFrame, lines 94-113: the blob to come, or null. *)
Definition captureFrame (video : option Video) (canvas : bool)
  : Async (option Blob) :=
  match video with
  | Some v =>
      if canvas then
        if (videoWidth v =? 0)%Z || (videoHeight v =? 0)%Z then Ret None
        else
          perform (draw_frame (videoWidth v) (videoHeight v)) ;;;
          await (canvas_toBlob (videoWidth v) (videoHeight v))
      else Ret None
  | None => Ret None
  end.

(** The callback of the recognition interval, lines 118-133. *)
Definition recognition_tick (env : Env) (video : option Video) (canvas : bool)
  : Async unit :=
  match video with
  | None => Ret tt
  | Some v =>
      if paused v || ended v then Ret tt
      else
        blob <- captureFrame video canvas ;;
        match blob with
        | None => Ret tt
        | Some b =>
            try_catch
              (data <- await (post_recognize
                                (interpolate (VITE_API_BASE_URL env) ++ "/face/recognize")
                                b) ;;
               perform (setRecognitionResult (Some data)))
              (fun err => perform (console_error "Recognition error" err))
        end
  end.

Definition is_recognize (q : Request) : bool :=
  match q with post_recognize _ _ => true | _ => false end.

(** A camera that plays, and servers to try the page on. *)
Definition playing : Video :=
  {| paused := false; ended := false; videoWidth := 640; videoHeight := 480 |}.

Definition jane_seen : Recognition :=
  {| name := "Jane"; relation := "Self"; confidence := 0.42%float |}.

Definition up : Server :=
  fun q =>
    match q as q0 return Outcome error (Response q0) with
    | post_register _ n r _ => Fulfilled {| r_name := n; r_relation := r |}
    | canvas_toBlob _ _ => Fulfilled (Some {| blob_size := 48213 |})
    | post_recognize _ _ => Fulfilled jane_seen
    end.

Definition down : Server :=
  fun q =>
    match q as q0 return Outcome error (Response q0) with
    | canvas_toBlob _ _ => Fulfilled (Some {| blob_size := 48213 |})
    | _ => Rejected {| detail := None |}
    end.

Definition local_env : Env := {| VITE_API_BASE_URL := Some "http://localhost:8000" |}.

End FacePage.

(** ** The SOS settings page: contacts and configuration *)

Module SOSSettings.
Import JS Async Async.Notations.
Local Open Scope async_scope.

(** *** Data *)

Record Contact : Type := {
  id : Z;
  name : string;
  phone : string;
  email : option string;
  relationship : option string;
  priority : Z
}.

(** The form of the add-contact modal. *)
Record NewContact : Type := {
  n_name : string;
  n_phone : string;
  n_email : string;
  n_relationship : string;
  n_priority : Z
}.

Definition blank_contact : NewContact :=
  {| n_name := ""; n_phone := ""; n_email := ""; n_relationship := "";
     n_priority := 1 |}.

Record Config : Type := {
  send_sms : bool;
  make_call : bool;
  share_location : bool;
  record_audio : bool;
  email_alert : bool;
  alert_services : bool
}.

Definition default_config : Config :=
  {| send_sms := true; make_call := true; share_location := true;
     record_audio := false; email_alert := true; alert_services := false |}.

Record State : Type := {
  contacts : list Contact;
  config : Config;
  loading : bool;
  saving : bool;
  showAddModal : bool;
  newContact : NewContact
}.

Definition initial_state : State :=
  {| contacts := []; config := default_config; loading := true;
     saving := false; showAddModal := false; newContact := blank_contact |}.

(** *** The API the page calls (services/api) *)

Inductive Request : Type :=
| getContacts
| getConfig
| createContact (c : NewContact)
| deleteContact (contactId : Z)
| updateConfig (c : Config).

Definition Response (q : Request) : Type :=
  match q with
  | getContacts => option (list Contact)
  | getConfig => option Config
  | createContact _ => Contact
  | deleteContact _ => unit
  | updateConfig _ => unit
  end.

Definition error : Type := string.

Inductive Action : Type :=
| setContacts (v : list Contact)
| setConfig (v : Config)
| setLoading (v : bool)
| setSaving (v : bool)
| setShowAddModal (v : bool)
| setNewContact (v : NewContact)
| toast_success (msg : string)
| toast_error (msg : string)
| console_error (msg : string) (e : error)
(* window.confirm(msg), and what the user answered *)
| confirm (msg : string) (answer : bool).

Definition handle (a : Action) (s : State) : State :=
  match a with
  | setContacts v =>
      {| contacts := v; config := config s; loading := loading s;
         saving := saving s; showAddModal := showAddModal s;
         newContact := newContact s |}
  | setConfig v =>
      {| contacts := contacts s; config := v; loading := loading s;
         saving := saving s; showAddModal := showAddModal s;
         newContact := newContact s |}
  | setLoading v =>
      {| contacts := contacts s; config := config s; loading := v;
         saving := saving s; showAddModal := showAddModal s;
         newContact := newContact s |}
  | setSaving v =>
      {| contacts := contacts s; config := config s; loading := loading s;
         saving := v; showAddModal := showAddModal s;
         newContact := newContact s |}
  | setShowAddModal v =>
      {| contacts := contacts s; config := config s; loading := loading s;
         saving := saving s; showAddModal := v;
         newContact := newContact s |}
  | setNewContact v =>
      {| contacts := contacts s; config := config s; loading := loading s;
         saving := saving s; showAddModal := showAddModal s;
         newContact := v |}
  | toast_success _ | toast_error _ | console_error _ _ | confirm _ _ => s
  end.

Definition sg : Sig :=
  {| Act := Action; Req := Request; Resp := Response; Err := error |}.

Definition Async (R : Type) : Type := Async.t sg R.
Definition Server : Type := Async.Server sg.
Definition Outcome (A : Type) : Type := Async.Outcome error A.
Definition await (q : Request) : Async (Response q) := Async.await (Sg := sg) q.
Definition perform (a : Action) : Async unit := Async.perform (Sg := sg) a.

Definition after (s : State) (l : list (Async.Event sg)) : State :=
  replay (Sg := sg) handle s l.

Definition is_toast (a : Action) : bool :=
  match a with
  | toast_success _ | toast_error _ => true
  | _ => false
  end.

Definition toasts (l : list (Async.Event sg)) : list Action :=
  filter is_toast (actions l).

(** [await Promise.all([q1, q2])] over two calls: both requests are issued
    before either response is looked at; the two values when both are
    fulfilled, otherwise a rejection (of the first in the array when both
    are rejected: which of two the code cannot tell apart here). *)
Definition await_all (q1 q2 : Request) : Async (Response q1 * Response q2) :=
  Await (Sg := sg) q1 (fun o1 =>
  Await (Sg := sg) q2 (fun o2 =>
    match o1, o2 with
    | Fulfilled a, Fulfilled b => Ret (a, b)
    | Rejected e, _ => Throw e
    | _, Rejected e => Throw e
    end)).

(** *** The handlers, in the order of the source *)

(** fetchData, lines 32-47; [config] is the state the function closed over. *)
Definition fetchData (config : Config) : Async unit :=
  try_finally
    (try_catch
       (perform (setLoading true) ;;;
        res <- await_all getContacts getConfig ;;
        perform (setContacts (match fst res with Some l => l | None => [] end)) ;;;
        perform (setConfig (match snd res with Some c => c | None => config end)))
       (fun e =>
          perform (console_error "Failed to fetch SOS settings:" e) ;;;
          perform (toast_error "Failed to load SOS settings")))
    (perform (setLoading false)).

(** handleAddContact, lines 49-68 *)
Definition handleAddContact (contacts : list Contact) (newContact : NewContact)
  : Async unit :=
  if negb (truthy (n_name newContact)) || negb (truthy (n_phone newContact)) then
    perform (toast_error "Name and phone number are required")
  else
    try_finally
      (try_catch
         (perform (setSaving true) ;;;
          data <- await (createContact newContact) ;;
          perform (setContacts (contacts ++ [data])%list) ;;;
          perform (setShowAddModal false) ;;;
          perform (setNewContact blank_contact) ;;;
          perform (toast_success "Emergency contact added successfully"))
         (fun e =>
            perform (console_error "Failed to add contact:" e) ;;;
            perform (toast_error "Failed to add emergency contact")))
      (perform (setSaving false)).

(** The Add Contact button of the modal, line 401:
    [disabled={saving || !newContact.name || !newContact.phone}] *)
Definition add_button_disabled (saving : bool) (newContact : NewContact) : bool :=
  saving || negb (truthy (n_name newContact)) || negb (truthy (n_phone newContact)).

(** [contacts.filter(c => c.id !== contactId)] *)
Definition without (contactId : Z) (contacts : list Contact) : list Contact :=
  filter (fun c => negb (id c =? contactId)%Z) contacts.

(** handleDeleteContact, lines 70-83; [answer] is what the user replies to
    the confirmation prompt. *)
Definition handleDeleteContact (contacts : list Contact) (contactId : Z)
    (answer : bool) : Async unit :=
  perform (confirm "Are you sure you want to remove this emergency contact?" answer) ;;;
  if negb answer then Ret tt
  else
    try_catch
      (_ <- await (deleteContact contactId) ;;
       perform (setContacts (without contactId contacts)) ;;;
       perform (toast_success "Emergency contact removed"))
      (fun e =>
         perform (console_error "Failed to delete contact:" e) ;;;
         perform (toast_error "Failed to remove emergency contact")).

(** handleSaveConfig, lines 85-96 *)
Definition handleSaveConfig (config : Config) : Async unit :=
  try_finally
    (try_catch
       (perform (setSaving true) ;;;
        _ <- await (updateConfig config) ;;
        perform (toast_success "SOS settings saved successfully"))
       (fun e =>
          perform (console_error "Failed to save config:" e) ;;;
          perform (toast_error "Failed to save SOS settings")))
    (perform (setSaving false)).

(** *** A scenario to try the page on *)

Definition ana : Contact :=
  {| id := 1; name := "Ana"; phone := "+351 910 000 001";
     email := None; relationship := Some "Daughter"; priority := 1 |}.

Definition rui : Contact :=
  {| id := 2; name := "Rui"; phone := "+351 910 000 002";
     email := Some "rui@example.com"; relationship := None; priority := 2 |}.

Definition up : Server :=
  fun q =>
    match q as q0 return Outcome (Response q0) with
    | getContacts => Fulfilled (Some [ana; rui])
    | getConfig => Fulfilled None
    | createContact c =>
        Fulfilled {| id := 3; name := n_name c; phone := n_phone c;
                     email := Some (n_email c);
                     relationship := Some (n_relationship c);
                     priority := n_priority c |}
    | deleteContact _ => Fulfilled tt
    | updateConfig _ => Fulfilled tt
    end.

(** The same server when the configuration cannot be read. *)
Definition up_without_config : Server :=
  fun q =>
    match q as q0 return Outcome (Response q0) with
    | getConfig => Rejected "500"
    | q0 => up q0
    end.

Definition down : Server := fun q => Rejected "Network Error".

Definition listing (l : list Contact) : State :=
  {| contacts := l; config := default_config; loading := false;
     saving := false; showAddModal := false; newContact := blank_contact |}.

(** The page showing [l] with no call under way. *)
Definition idle (l : list Contact) : Loop sg State :=
  {| state := listing l; inflight := []; history := [] |}.

End SOSSettings.

(** * Properties *)

(** ** The event loop in general *)

Module LoopFacts.
Import Async.

Section Facts.
Context {Sg : Sig} {S : Type}.
Variable handle : Act Sg -> S -> S.
Variable admissible : forall q : Req Sg, Outcome (Err Sg) (Resp Sg q) -> Prop.
Variable P : forall q : Req Sg, Outcome (Err Sg) (Resp Sg q) -> t Sg unit -> Prop.

Lemma state_advance (p : t Sg unit) (w : Loop Sg S) :
  state (advance handle p w) = sync handle p (state w).
Proof.
  revert w; induction p as [r|e|a k IH|q k _]; intros w; cbn; auto.
Qed.

Lemma history_advance (p : t Sg unit) (w : Loop Sg S) :
  history (advance handle p w) = (history w ++ segment p)%list.
Proof.
  revert w; induction p as [r|e|a k IH|q k _]; intros w; cbn;
    rewrite ?app_nil_r; auto.
  rewrite IH; cbn. now rewrite <- app_assoc.
Qed.

Lemma inflight_advance (p : t Sg unit) (w : Loop Sg S) :
  Forall (tame admissible P) (inflight w) ->
  hereditarily admissible P p ->
  Forall (tame admissible P) (inflight (advance handle p w)).
Proof.
  revert w; induction p as [r|e|a k IH|q k _]; intros w Hw Hp; cbn in *; auto.
  apply Forall_app; split; [assumption|].
  constructor; [|constructor].
  intros o Ho; cbn. apply Hp, Ho.
Qed.

Lemma Forall_drop_nth {A} (Q : A -> Prop) (i : nat) (l : list A) :
  Forall Q l -> Forall Q (drop_nth i l).
Proof.
  intros H; revert i; induction H as [|x l Hx Hl IH]; intros [|i]; cbn; auto.
Qed.

Lemma state_settle (i : nat) (srv : Server Sg) (w : Loop Sg S) (pd : Pending Sg) :
  nth_error (inflight w) i = Some pd ->
  state (settle handle i srv w)
  = sync handle (resume pd (srv (request pd))) (state w).
Proof.
  intros H; unfold settle; rewrite H. now rewrite state_advance.
Qed.

Lemma history_settle (i : nat) (srv : Server Sg) (w : Loop Sg S) (pd : Pending Sg) :
  nth_error (inflight w) i = Some pd ->
  history (settle handle i srv w)
  = (history w ++ segment (resume pd (srv (request pd))))%list.
Proof.
  intros H; unfold settle; rewrite H. now rewrite history_advance.
Qed.

Lemma state_settle_none (i : nat) (srv : Server Sg) (w : Loop Sg S) :
  nth_error (inflight w) i = None -> settle handle i srv w = w.
Proof. intros H; unfold settle; now rewrite H. Qed.

Lemma inflight_settle (i : nat) (srv : Server Sg) (w : Loop Sg S) :
  (forall q, admissible q (srv q)) ->
  Forall (tame admissible P) (inflight w) ->
  Forall (tame admissible P) (inflight (settle handle i srv w)).
Proof.
  intros Hsrv Hw; unfold settle.
  destruct (nth_error (inflight w) i) as [pd|] eqn:Hi; [|assumption].
  apply inflight_advance; cbn.
  - now apply Forall_drop_nth.
  - apply nth_error_In in Hi.
    rewrite Forall_forall in Hw. apply (Hw pd Hi), Hsrv.
Qed.

Lemma tame_settled (i : nat) (srv : Server Sg) (w : Loop Sg S) (pd : Pending Sg) :
  (forall q, admissible q (srv q)) ->
  Forall (tame admissible P) (inflight w) ->
  nth_error (inflight w) i = Some pd ->
  P (request pd) (srv (request pd)) (resume pd (srv (request pd))).
Proof.
  intros Hsrv Hw Hi. apply nth_error_In in Hi.
  rewrite Forall_forall in Hw. apply (Hw pd Hi), Hsrv.
Qed.

Lemma nth_error_last {A} (l : list A) (x : A) :
  nth_error (l ++ [x])%list (List.length l) = Some x.
Proof. induction l; cbn; auto. Qed.

Lemma drop_nth_last {A} (l : list A) (x : A) :
  drop_nth (List.length l) (l ++ [x])%list = l.
Proof. induction l; cbn; auto. now f_equal. Qed.

(** A call started in the loop, whose requests then settle one after the
    other with nothing in between, does what [run] says: the state is the
    one [replay] computes from the log of the call run in one go. *)
Lemma loop_runs_call (p : t Sg unit) (srv : Server Sg) (w : Loop Sg S) :
  settle_each handle
    (List.length (requests (fst (run srv p)))) (List.length (inflight w)) srv
    (advance handle p w)
  = {| state := replay handle (state w) (fst (run srv p));
       inflight := inflight w;
       history := (history w ++ fst (run srv p))%list |}.
Proof.
  revert w; induction p as [r|e|a k IH|q k IH]; intros w.
  - destruct w; cbn. now rewrite app_nil_r.
  - destruct w; cbn. now rewrite app_nil_r.
  - cbn [advance run].
    specialize (IH {| state := handle a (state w);
                      inflight := inflight w;
                      history := (history w ++ [EAct a])%list |}).
    destruct (run srv k) as [l o]; cbn [fst state inflight history] in *.
    change (requests (EAct a :: l)) with (requests l).
    rewrite IH, <- app_assoc. reflexivity.
  - cbn [advance run].
    specialize (IH (srv q) {| state := state w;
                              inflight := inflight w;
                              history := (history w ++ [EReq q])%list |}).
    destruct (run srv (k (srv q))) as [l o]; cbn [fst state inflight history] in *.
    change (requests (EReq q :: l)) with (q :: requests l).
    cbn [List.length settle_each]. unfold settle at 1.
    cbn [inflight state history].
    rewrite nth_error_last, drop_nth_last. cbn [request resume].
    rewrite IH, <- app_assoc. reflexivity.
Qed.

End Facts.
End LoopFacts.

(** ** The alert hook, one call at a time *)

Module HookProps.
Import JS Async SOSAlerts.

(** Unfolds a call of the hook down to the outcome of its requests. *)
Ltac unfold_call :=
  cbv [acknowledgeAlert resolveAlert cancelAlert clearHistory
       updateAlertLocation triggerAlert fetchAlertHistory fetchActiveAlert
       invoke await perform void SOSAlerts.after toasts default_arg];
  cbn [Async.await Async.perform Async.bind Async.try_catch Async.run
       Async.void fst snd].

(** Case analysis on how the server settles the request under focus. *)
Ltac settle_request :=
  match goal with
  | |- context [?srv ?q] =>
      match type of srv with
      | Server => destruct (srv q) eqn:?
      end
  end.

(** C4: acknowledgeAlert issues one status update; when it succeeds the
    active-alert slot holds exactly the alert the server returned; when it
    fails the slot keeps what it held and the user is shown the notice
    "Failed to acknowledge alert". *)
Theorem acknowledgeAlert_outcomes (alertId : Z) (srv : Server) (s : HookState) :
  let q := updateAlert alertId (just_status acknowledged) in
  let l := fst (run srv (acknowledgeAlert alertId)) in
  requests l = [q] /\
  match srv q with
  | Fulfilled a => activeAlert (after s l) = Some a
  | Rejected _ =>
      activeAlert (after s l) = activeAlert s /\
      toasts l = [toast_error "Failed to acknowledge alert"]
  end.
Proof.
  intros q l; subst q l. unfold_call.
  settle_request; cbn; auto.
Qed.

(** C2: a resolve that succeeds clears the active-alert slot and fetches
    the history again; one that fails leaves the slot as it was.  The same
    holds of cancelAlert, whose request is a resolve update with
    resolved_by 'System' and notes 'Cancelled'. *)
Theorem resolve_and_cancel_outcomes
    (srv : Server) (s : HookState) (a : Alert)
    (alertId : Z) (resolvedBy notes : option string) :
  activeAlert s = Some a ->
  (let q := updateAlert alertId
              {| u_status := Some resolved;
                 u_resolved_by := Some (default_arg resolvedBy "Caregiver");
                 u_notes := Some (default_arg notes "");
                 u_location := None |} in
   let l := fst (run srv (invoke (op_resolveAlert alertId resolvedBy notes) s)) in
   match srv q with
   | Fulfilled _ =>
       activeAlert (after s l) = None /\
       requests l = [q; getAlerts 50 resolved]
   | Rejected _ =>
       activeAlert (after s l) = activeAlert s /\ requests l = [q]
   end) /\
  (let q := updateAlert (id a)
              {| u_status := Some resolved;
                 u_resolved_by := Some "System";
                 u_notes := Some "Cancelled";
                 u_location := None |} in
   let l := fst (run srv (invoke op_cancelAlert s)) in
   match srv q with
   | Fulfilled _ =>
       activeAlert (after s l) = None /\
       requests l = [q; getAlerts 50 resolved]
   | Rejected _ =>
       activeAlert (after s l) = activeAlert s /\ requests l = [q]
   end).
Proof.
  intros Hs. split; intros q l; subst q l; unfold_call.
  - unfold resolve_update. settle_request; cbn.
    + settle_request; cbn; auto.
    + auto.
  - rewrite Hs. unfold resolve_update. cbn.
    settle_request; cbn.
    + settle_request; cbn; auto.
    + auto.
Qed.

(** C3: with a location that has no address, triggerAlert asks for the
    address once, then issues the create request, whatever the answer; a
    failed lookup leaves the address absent, a successful one puts the
    returned address in the payload's location. *)
Theorem triggerAlert_geocodes_once
    (options : Options) (loc : Location) (srv : Server) :
  opt_location options = Some loc ->
  address loc = None ->
  let geo := reverseGeocode (lat loc) (lng loc) in
  let l := fst (run srv (triggerAlert options)) in
  exists d,
    requests l = [geo; createAlert d] /\
    match srv geo with
    | Fulfilled addr =>
        d_location d = Some {| lat := lat loc; lng := lng loc; address := addr |}
    | Rejected _ =>
        d_location d = Some {| lat := lat loc; lng := lng loc; address := None |}
    end.
Proof.
  intros Hloc Haddr geo l; subst geo l. unfold_call.
  unfold alertData_of. rewrite Hloc. cbn. rewrite Haddr. cbn.
  destruct (srv (reverseGeocode (lat loc) (lng loc))) as [addr|e] eqn:Hgeo; cbn.
  - eexists. split.
    + settle_request; cbn; reflexivity.
    + reflexivity.
  - eexists. split.
    + settle_request; cbn; reflexivity.
    + destruct loc; cbn in *; subst; reflexivity.
Qed.

(** C10: the payload triggerAlert creates coerces falsy options: a
    battery level of 0 is sent as null, a missing location as null, a
    missing isTest as false and a missing connectionStatus as 'online'. *)
Theorem triggerAlert_payload_coercions (options : Options) (srv : Server) :
  exists d,
    created (fst (run srv (triggerAlert options))) = [d] /\
    (batteryLevel options = Some 0%float -> d_battery_level d = None) /\
    (opt_location options = None -> d_location d = None) /\
    (isTest options = None -> d_is_test d = false) /\
    (connectionStatus options = None -> d_connection_status d = "online").
Proof.
  destruct options as [t [loc|] b c]; unfold_call; unfold alertData_of; cbn.
  - destruct (truthy (address loc)) eqn:Ht; cbn.
    + eexists; split.
      * settle_request; cbn; reflexivity.
      * cbn. repeat split; intros H; subst; try discriminate; reflexivity.
    + destruct (srv (reverseGeocode (lat loc) (lng loc))); cbn.
      * eexists; split.
        -- settle_request; cbn; reflexivity.
        -- cbn. repeat split; intros H; subst; try discriminate; reflexivity.
      * eexists; split.
        -- settle_request; cbn; reflexivity.
        -- cbn. repeat split; intros H; subst; try discriminate; reflexivity.
  - eexists; split.
    + settle_request; cbn; reflexivity.
    + cbn. repeat split; intros H; subst; try discriminate; reflexivity.
Qed.

Lemma acknowledgeAlert_outcomes_witness :
  activeAlert
    (after showing_alert7 (fst (run up (acknowledgeAlert 7))))
  = Some alert7_acknowledged.
Proof. exact (proj2 (acknowledgeAlert_outcomes 7 up showing_alert7)). Defined.

Lemma resolve_and_cancel_outcomes_witness :
  activeAlert showing_alert7 = Some alert7 /\
  (activeAlert
     (after showing_alert7
        (fst (run up (invoke (op_resolveAlert 7 None None) showing_alert7))))
   = None) /\
  (activeAlert
     (after showing_alert7
        (fst (run down (invoke op_cancelAlert showing_alert7))))
   = Some alert7).
Proof.
  split; [reflexivity|]. split.
  - exact (proj1 (proj1 (resolve_and_cancel_outcomes
                           up showing_alert7 alert7 7 None None eq_refl))).
  - exact (proj1 (proj2 (resolve_and_cancel_outcomes
                           down showing_alert7 alert7 7 None None eq_refl))).
Defined.

Lemma triggerAlert_geocodes_once_witness :
  let options := {| isTest := None; opt_location := Some lisbon;
                    batteryLevel := None; connectionStatus := None |} in
  opt_location options = Some lisbon /\ address lisbon = None /\
  exists d,
    requests (fst (run up_without_geocoder (triggerAlert options)))
    = [reverseGeocode 38.72%float (-9.14)%float; createAlert d] /\
    d_location d = Some lisbon.
Proof.
  intros options. split; [reflexivity|]. split; [reflexivity|].
  exact (triggerAlert_geocodes_once options lisbon up_without_geocoder
           eq_refl eq_refl).
Defined.

Lemma triggerAlert_payload_coercions_witness :
  let options := {| isTest := None; opt_location := None;
                    batteryLevel := Some 0%float; connectionStatus := None |} in
  exists d,
    created (fst (run up (triggerAlert options))) = [d] /\
    d_battery_level d = None /\ d_location d = None /\
    d_is_test d = false /\ d_connection_status d = "online".
Proof.
  intros options.
  destruct (triggerAlert_payload_coercions options up)
    as (d & Hd & Hb & Hl & Ht & Hc).
  exists d. split; [exact Hd|].
  split; [exact (Hb eq_refl)|]. split; [exact (Hl eq_refl)|].
  split; [exact (Ht eq_refl)|exact (Hc eq_refl)].
Defined.

(** C6, as the specification words it, fails: when the server cannot be
    reached, cancelAlert logs the error and nothing else.  No notification
    is shown and the promise is fulfilled, so its caller cannot tell. *)
Lemma cancelAlert_fails_silently :
  run down (invoke op_cancelAlert showing_alert7)
  = ([asked (updateAlert 7 (resolve_update "System" "Cancelled"));
      did (console_error "Failed to cancel alert:" "Network Error")],
     Fulfilled tt)
  /\ toasts (fst (run down (invoke op_cancelAlert showing_alert7))) = [].
Proof. split; reflexivity. Qed.

(** C6, amended: a failed triggerAlert, acknowledgeAlert, resolveAlert or
    clearHistory shows an error notification; cancelAlert and
    updateAlertLocation show none, whether they fail or succeed (a failure
    is only logged).  Only triggerAlert passes the failure on: its promise
    is rejected exactly when its create request is, and the promises of the
    other five are fulfilled in every case. *)
Theorem failure_reporting (srv : Server) :
  (forall options,
     let r := run srv (triggerAlert options) in
     exists d,
       created (fst r) = [d] /\
       match srv (createAlert d) with
       | Fulfilled a =>
           snd r = Fulfilled a /\
           toasts (fst r) = [toast_success (if truthy (is_test a)
                                            then "Test SOS alert created"
                                            else "SOS alert triggered!")]
       | Rejected e =>
           snd r = Rejected e /\
           toasts (fst r) = [toast_error "Failed to trigger SOS alert"]
       end) /\
  (forall alertId,
     let r := run srv (acknowledgeAlert alertId) in
     snd r = Fulfilled tt /\
     match srv (updateAlert alertId (just_status acknowledged)) with
     | Fulfilled _ => toasts (fst r) = [toast_success "Alert acknowledged"]
     | Rejected _ => toasts (fst r) = [toast_error "Failed to acknowledge alert"]
     end) /\
  (forall alertId resolvedBy notes,
     let r := run srv (resolveAlert alertId resolvedBy notes) in
     snd r = Fulfilled tt /\
     match srv (updateAlert alertId
                  (resolve_update (default_arg resolvedBy "Caregiver")
                                  (default_arg notes ""))) with
     | Fulfilled _ => toasts (fst r) = [toast_success "Alert resolved successfully"]
     | Rejected _ => toasts (fst r) = [toast_error "Failed to resolve alert"]
     end) /\
  (let r := run srv clearHistory in
   snd r = Fulfilled tt /\
   match srv clearHistoryReq with
   | Fulfilled _ => toasts (fst r) = [toast_success "Alert history cleared"]
   | Rejected _ => toasts (fst r) = [toast_error "Failed to clear history"]
   end) /\
  (forall activeAlert,
     let r := run srv (cancelAlert activeAlert) in
     snd r = Fulfilled tt /\ toasts (fst r) = []) /\
  (forall activeAlert newLocation,
     let r := run srv (updateAlertLocation activeAlert newLocation) in
     snd r = Fulfilled tt /\ toasts (fst r) = []).
Proof.
  refine (conj _ (conj _ (conj _ (conj _ (conj _ _))))).
  - intros options r; subst r. unfold_call. unfold alertData_of.
    destruct (d_location _) as [loc|] eqn:Hloc; cbn in Hloc |- *;
      rewrite ?Hloc; cbn.
    + destruct (truthy (address loc)); cbn.
      * eexists; split; [settle_request; cbn; reflexivity|].
        settle_request; cbn; auto.
      * destruct (srv (reverseGeocode _ _)); cbn.
        -- eexists; split; [settle_request; cbn; reflexivity|].
           settle_request; cbn; auto.
        -- eexists; split; [settle_request; cbn; reflexivity|].
           settle_request; cbn; auto.
    + eexists; split; [settle_request; cbn; reflexivity|].
      settle_request; cbn; auto.
  - intros alertId r; subst r. unfold_call.
    settle_request; split; reflexivity.
  - intros alertId resolvedBy notes r; subst r. unfold_call.
    settle_request; cbn; [settle_request|]; split; reflexivity.
  - intros r; subst r. unfold_call.
    settle_request; split; reflexivity.
  - intros [a|] r; subst r; unfold_call; [|split; reflexivity].
    settle_request; cbn; [settle_request|]; split; reflexivity.
  - intros [a|] newLocation r; subst r; unfold_call; [|split; reflexivity].
    settle_request; split; reflexivity.
Qed.

End HookProps.

(** ** The alert hook in its event loop *)

Module HookLoopProps.
Import JS Async Async.Notations SOSAlerts LoopFacts.
Local Open Scope async_scope.

Lemma activeAlert_handle (a : Action) (s : HookState) :
  activeAlert (handle a s)
  = match a with setActiveAlert v => v | _ => activeAlert s end.
Proof.
  destruct a; cbn; auto.
  destruct (loadData_waiting s) as [|[|n]]; reflexivity.
Qed.

(** Walks down a tree of the hook, one response at a time. *)
Ltac lawful_tac :=
  repeat match goal with
  | |- lawful _ => unfold lawful
  | |- forall _, _ => intro
  | o : Async.Outcome _ (option _) |- _ => destruct o as [[?|]|?]
  | o : Async.Outcome _ _ |- _ => destruct o
  | |- _ /\ _ => split
  | |- True => exact I
  | |- writes_as_stated _ _ _ =>
      split;
      [ intro; cbn -[handle]; rewrite ?activeAlert_handle; reflexivity
      | cbn; intros ? [= <-]; auto 6 ]
  | |- hereditarily _ _ _ => progress cbn
  end.

Lemma lawful_fetchActiveAlert : lawful fetchActiveAlert.
Proof. lawful_tac. Qed.

Lemma lawful_loadData_poll :
  lawful (fetchActiveAlert ;;; perform promise_all_arrive).
Proof. lawful_tac. Qed.

Lemma lawful_loadData_history :
  lawful (fetchAlertHistory ;;; perform promise_all_arrive).
Proof. lawful_tac. Qed.

Lemma lawful_invoke (op : Op) (s : HookState) : lawful (invoke op s).
Proof.
  destruct op as [options|alertId|alertId resolvedBy notes| | |newLocation];
    cbn [invoke].
  - unfold triggerAlert, alertData_of.
    destruct (opt_location options) as [loc|]; cbn.
    + destruct (truthy (address loc)); cbn; lawful_tac.
    + lawful_tac.
  - lawful_tac.
  - lawful_tac.
  - destruct (activeAlert s); lawful_tac.
  - lawful_tac.
  - destruct (activeAlert s); lawful_tac.
Qed.

(** No call touches the slot before its first [await]. *)
Lemma quiet_invoke (op : Op) (s s' : HookState) :
  activeAlert (sync (Sg := sg) handle (invoke op s) s') = activeAlert s'.
Proof.
  destruct op as [options|alertId|alertId resolvedBy notes| | |newLocation];
    cbn [invoke]; try reflexivity.
  - unfold triggerAlert, alertData_of.
    destruct (opt_location options) as [loc|]; cbn;
      [destruct (truthy (address loc))|]; reflexivity.
  - destruct (activeAlert s); reflexivity.
  - destruct (activeAlert s); reflexivity.
Qed.

Lemma slot_start (p : Async unit) (w : World) :
  slot (start p w) = activeAlert (sync (Sg := sg) handle p (state (loop w))).
Proof. unfold slot, start; cbn. now rewrite state_advance. Qed.

Lemma lawful_start (p : Async unit) (w : World) :
  lawful p -> lawful_world w -> lawful_world (start p w).
Proof. intros Hp Hw. unfold lawful_world, start; cbn. now apply inflight_advance. Qed.

Lemma last_written_app (cur : option Alert) (rs rs' : list Applied) :
  last_written cur (rs ++ rs')%list = last_written (last_written cur rs) rs'.
Proof. apply fold_left_app. Qed.

(** One event: the slot moves only on a response, and then to what the
    response writes. *)
Lemma step_spec (w : World) (e : LoopEvent) :
  lawful_world w ->
  slot (step w e) = last_written (slot w) (response_of w e) /\
  lawful_world (step w e).
Proof.
  intros Hw. destruct e as [| | |op|i srv]; cbn [step response_of last_written fold_left].
  - destruct (phase w); auto. split.
    + change (slot (mount_effect w)) with (slot (loadData w)).
      unfold loadData. now rewrite !slot_start.
    + unfold mount_effect, loadData, lawful_world; cbn [loop].
      apply lawful_start; [apply lawful_loadData_history|].
      apply lawful_start; [apply lawful_loadData_poll|].
      apply lawful_start; [lawful_tac|assumption].
  - destruct (phase w); auto.
  - destruct (interval_running w); auto. split.
    + now rewrite slot_start.
    + apply lawful_start; [apply lawful_fetchActiveAlert|assumption].
  - split.
    + now rewrite slot_start, quiet_invoke.
    + apply lawful_start; [apply lawful_invoke|assumption].
  - split.
    + unfold slot, with_loop; cbn [loop].
      destruct (nth_error (inflight (loop w)) i) as [pd|] eqn:Hi.
      * rewrite (state_settle (Sg := sg) handle i srv (loop w) pd Hi).
        cbn [last_written fold_left].
        apply (tame_settled (Sg := sg) any_outcome writes_as_stated i srv (loop w) pd);
          [intros q; exact I|exact Hw|exact Hi].
      * now rewrite state_settle_none.
    + unfold lawful_world, with_loop; cbn [loop].
      apply inflight_settle; [intros q; exact I|exact Hw].
Qed.

Lemma steps_spec (es : list LoopEvent) (w : World) :
  lawful_world w ->
  slot (steps w es) = last_written (slot w) (applied w es) /\
  lawful_world (steps w es).
Proof.
  revert w; induction es as [|e es IH]; intros w Hw; cbn [steps fold_left applied].
  - now split.
  - destruct (step_spec w e Hw) as [Hslot Hw'].
    destruct (IH (step w e) Hw') as [IHslot IHw].
    split; [|exact IHw].
    unfold steps in IHslot. rewrite IHslot, Hslot. symmetry. apply last_written_app.
Qed.

Lemma lawful_initial : lawful_world initial.
Proof. constructor. Qed.

Lemma interval_cleared_step (w : World) (e : LoopEvent) :
  interval_cleared w -> interval_cleared (step w e).
Proof.
  unfold interval_cleared.
  destruct e as [| | |op|i srv]; cbn [step]; intros H.
  - destruct (phase w) eqn:Hp; cbn; rewrite ?Hp; auto. discriminate.
  - destruct (phase w) eqn:Hp; cbn; rewrite ?Hp; auto.
    destruct (pollIntervalRef w); [reflexivity|congruence].
  - destruct (interval_running w) eqn:Hr; cbn; rewrite ?Hr; auto.
  - exact H.
  - exact H.
Qed.

Lemma interval_cleared_steps (es : list LoopEvent) (w : World) :
  interval_cleared w -> interval_cleared (steps w es).
Proof.
  revert w; induction es as [|e es IH]; intros w Hw; cbn; auto.
  apply IH, interval_cleared_step, Hw.
Qed.

(** loadData: the spinner goes when both of the first two fetches have
    settled, not before. *)
Example loading_ends_after_both_fetches :
  isLoading (state (loop (steps initial [ev_mount; ev_response 0 up]))) = true /\
  isLoading (state (loop (steps initial [ev_mount; ev_response 1 down]))) = true /\
  isLoading (state (loop (steps initial
                            [ev_mount; ev_response 1 down; ev_response 0 up])))
  = false.
Proof. repeat split; reflexivity. Qed.







End HookLoopProps.

(** ** The reset-password form *)

Module ResetPasswordProps.
Import JS Async ResetPassword.

(** C8: a submission whose two passwords differ is turned down with
    "Passwords do not match", and one whose (matching) password is shorter
    than 6 with "Password must be at least 6 characters"; in both cases the
    handler returns at once and no request is issued. *)
Theorem handleSubmit_validates
    (env : Env) (password confirmPassword token : string) (srv : Server) :
  let r := run srv (handleSubmit env password confirmPassword token) in
  (password <> confirmPassword ->
   r = ([did preventDefault; did (toast_error "Passwords do not match")],
        Fulfilled tt)
   /\ requests (fst r) = []) /\
  (password = confirmPassword ->
   String.length password < 6 ->
   r = ([did preventDefault;
         did (toast_error "Password must be at least 6 characters")],
        Fulfilled tt)
   /\ requests (fst r) = []).
Proof.
  intros r; subst r; unfold handleSubmit, perform; cbn [Async.perform Async.bind].
  split.
  - intros Hne.
    apply String.eqb_neq in Hne. rewrite Hne. cbn. split; reflexivity.
  - intros Heq Hlen. subst confirmPassword.
    rewrite String.eqb_refl. cbn [negb].
    apply Nat.ltb_lt in Hlen. rewrite Hlen. cbn. split; reflexivity.
Qed.

Lemma handleSubmit_validates_witness :
  (run accepting (handleSubmit no_env "abcdef" "abcdeg" "t0k3n")
   = ([did preventDefault; did (toast_error "Passwords do not match")],
      Fulfilled tt)) /\
  (run accepting (handleSubmit no_env "abcde" "abcde" "t0k3n")
   = ([did preventDefault;
       did (toast_error "Password must be at least 6 characters")],
      Fulfilled tt)).
Proof.
  split.
  - refine (proj1 (proj1 (handleSubmit_validates
                            no_env "abcdef" "abcdeg" "t0k3n" accepting) _)).
    discriminate.
  - refine (proj1 (proj2 (handleSubmit_validates
                            no_env "abcde" "abcde" "t0k3n" accepting) eq_refl _)).
    cbn; lia.
Defined.

(** A password that passes both checks does reach the server. *)
Example handleSubmit_sends :
  run accepting (handleSubmit no_env "abcdef" "abcdef" "t0k3n")
  = ([did preventDefault;
      did (setIsLoading true);
      asked (fetch_post_json "http://localhost:8000/auth/reset-password"
               {| b_token := "t0k3n"; new_password := "abcdef" |});
      asked response_json;
      did (toast_success "Password reset successfully!");
      did (setTimeout_navigate "/login" 2000);
      did (setIsLoading false)],
     Fulfilled tt).
Proof. reflexivity. Qed.

End ResetPasswordProps.

(** ** The confidence overlay *)

Module FaceRecognitionProps.
Import JS FaceRecognition.

(** toFixed on values whose nearest doubles lie on either side of the
    decimal written, and on a tie. *)
Example toFixed_examples :
  toFixed (0.57 * 100)%float 1 = Some "57.0" /\
  toFixed 0.05%float 1 = Some "0.1" /\
  toFixed 0.35%float 1 = Some "0.3" /\
  toFixed 0.25%float 1 = Some "0.3" /\
  toFixed 1.005%float 2 = Some "1.00" /\
  toFixed (-0.04)%float 1 = Some "-0.0" /\
  toFixed 12.5%float 0 = Some "13".
Proof. repeat split; vm_compute; reflexivity. Qed.

(** C9: the response {name: "Jane", relation: "Self", confidence: 0.42}
    is drawn with the text "42.0%" in the warning colour.  In general the
    text is the confidence times 100 to one decimal place, the colour is
    the warning one whenever the confidence is not above 0.6, and it is the
    success one only when the confidence is strictly greater than 0.6. *)
Theorem confidence_overlay :
  overlay (Some {| name := "Jane"; relation := "Self";
                   confidence := 0.42%float |})
  = Some {| detected := "Jane";
            relation_text := "Self";
            confidence_class := "text-lg font-mono text-yellow-400";
            confidence_text := Some "42.0%" |}
  /\
  (forall r : Recognition,
      PrimFloat.ltb 0.6%float (confidence r) = false ->
      option_map confidence_class (overlay (Some r))
      = Some ("text-lg font-mono " ++ warning_color))
  /\
  (forall r : Recognition,
      option_map confidence_class (overlay (Some r))
      = Some ("text-lg font-mono " ++ success_color)
      <-> PrimFloat.ltb 0.6%float (confidence r) = true)
  /\
  (forall r : Recognition,
      option_map confidence_text (overlay (Some r))
      = Some (option_map (fun m => m ++ "%")
                (toFixed (PrimFloat.mul (confidence r) 100%float) 1))).
Proof.
  split; [vm_compute; reflexivity|].
  split; [|split].
  - intros r H. cbn. unfold confidence_color. now rewrite H.
  - intros r. cbn. unfold confidence_color.
    destruct (PrimFloat.ltb 0.6%float (confidence r)); split; intros H;
      try reflexivity; try discriminate H.
  - intros r. reflexivity.
Qed.

Lemma confidence_overlay_witness :
  let r := {| name := "Jane"; relation := "Self"; confidence := 0.6%float |} in
  PrimFloat.ltb 0.6%float (confidence r) = false /\
  option_map confidence_class (overlay (Some r))
  = Some "text-lg font-mono text-yellow-400".
Proof.
  intros r. split; [reflexivity|].
  exact (proj1 (proj2 confidence_overlay) r eq_refl).
Defined.

End FaceRecognitionProps.

(** ** Change tracking on the profile page *)

Module ProfileProps.
Import JS Async Async.Notations ProfileSettings LoopFacts.
Local Open Scope async_scope.

Lemma strict_neq_spec (a b : value) : strict_neq a b = true <-> a <> b.
Proof.
  destruct a as [| |s], b as [| |s']; cbn; split; intros H;
    try congruence; try reflexivity; try discriminate.
  - apply negb_true_iff, String.eqb_neq in H. congruence.
  - apply negb_true_iff, String.eqb_neq. congruence.
Qed.

Lemma strict_neq_refl (a : value) : strict_neq a a = false.
Proof. destruct a; cbn; auto. now rewrite String.eqb_refl. Qed.

Lemma strict_neq_undefined (a : value) :
  a <> undefined -> strict_neq a undefined = true.
Proof. intros H; now apply strict_neq_spec. Qed.

Lemma changed_spec (p : Profile) (o : Original) :
  changed p o = true <->
  full_name p <> o_full_name o \/ email p <> o_email o.
Proof.
  unfold changed. rewrite orb_true_iff, !strict_neq_spec. reflexivity.
Qed.

Lemma changed_refl (p : Profile) :
  changed p {| o_full_name := full_name p; o_email := email p |} = false.
Proof. unfold changed; cbn. now rewrite !strict_neq_refl. Qed.

(** The render that follows an event settles the page: either a dependency
    was set and the effect recomputes the flag, or nothing it reads changed. *)
Lemma flush_settles (s : State) :
  loading s = false ->
  full_name (profile s) <> undefined ->
  o_full_name (originalProfile s) <> undefined ->
  deps_changed s = true \/
  hasUnsavedChanges s = changed (profile s) (originalProfile s) ->
  settled (flush s).
Proof.
  intros Hl Hn Ho Hf. unfold flush.
  destruct (deps_changed s) eqn:Hd.
  - unfold track_changes. rewrite Hl, (strict_neq_undefined _ Ho). cbn.
    repeat split; auto.
  - destruct Hf as [Hf|Hf]; [discriminate|]. repeat split; auto.
Qed.

Ltac now_tac :=
  let s := fresh "s" in
  intros s (? & ? & ? & ? & ?); apply flush_settles; cbn in *; auto.

Ltac steady_tac :=
  repeat match goal with
  | |- forall _, _ => intro
  | o : Async.Outcome _ _ |- _ => destruct o
  | |- _ /\ _ => split
  | |- True => exact I
  | |- keeps_settled _ _ _ => now_tac
  | |- hereditarily _ _ _ => progress cbn
  end.

Lemma steady_handleSave (prof : Profile) (nav : option Nav) (b : bool) :
  full_name prof <> undefined -> steady (handleSave prof nav b).
Proof.
  intros Hn. unfold steady, handleSave. cbn. intros o _. destruct o.
  - destruct nav as [to|]; [destruct (b && truthy to)|]; cbn; steady_tac.
  - steady_tac.
Qed.

Lemma steady_handleDeleteImage : steady handleDeleteImage.
Proof.
  unfold steady, handleDeleteImage; cbn.
  intros o Ho; destruct o; cbn in Ho; steady_tac.
Qed.

Lemma steady_handleImageUpload (file : option File) :
  steady (handleImageUpload file).
Proof.
  destruct file as [file|]; unfold steady, handleImageUpload; cbn; [|exact I].
  destruct (String.prefix _ _); cbn; [|exact I].
  destruct (_ <? _)%Z; cbn; [exact I|].
  intros o Ho; destruct o; cbn in Ho; steady_tac.
Qed.

Lemma settled_start (p : Async unit) (w : World) :
  settled_world w -> keeps_settled_now p -> steady p ->
  settled_world (render (start p w)).
Proof.
  intros (Hs & Hi & Hm) Hnow Hp. unfold settled_world, render, start; cbn.
  rewrite (state_advance (Sg := sg)). split; [|split].
  - apply Hnow, Hs.
  - apply inflight_advance; assumption.
  - assumption.
Qed.

Lemma settled_stay (w : World) : settled_world w -> settled_world (render w).
Proof.
  intros H. apply (settled_start (Ret tt) w H).
  - intros s (? & ? & ? & ? & ?). cbn. apply flush_settles; auto.
  - exact I.
Qed.

Lemma settled_step (w : World) (e : UiEvent) :
  well_formed_event e -> settled_world w -> settled_world (step w e).
Proof.
  intros He Hw. pose proof Hw as (Hs & Hi & Hm).
  pose proof Hs as (Hl & Hd & Hn & Ho & Hf).
  unfold step.
  destruct e as [|v|v| | | | | |file| |i srv]; cbn [dispatch]; rewrite ?Hm, ?Hl;
    cbv beta iota delta [negb andb orb].
  - now apply settled_stay.
  - apply settled_start;
      [assumption|unfold change_full_name; now_tac; discriminate|exact I].
  - apply settled_start; [assumption|unfold change_email; now_tac|exact I].
  - destruct (hasUnsavedChanges _); [destruct (saving _)|];
      try now apply settled_stay.
    apply settled_start; [assumption|unfold handleSave; now_tac|].
    apply steady_handleSave, Hn.
  - destruct (showUnsavedModal _); [|now apply settled_stay].
    apply settled_start; [assumption|unfold handleSave; now_tac|].
    apply (steady_handleSave _ _ true), Hn.
  - destruct (showUnsavedModal _); [|now apply settled_stay].
    apply settled_start; [assumption| |].
    + unfold handleDiscard.
      destruct (pendingNavigation _) as [to|]; [destruct (truthy to)|]; now_tac.
    + unfold handleDiscard.
      destruct (pendingNavigation _) as [to|]; [destruct (truthy to)|]; exact I.
  - destruct (showUnsavedModal _); [|now apply settled_stay].
    apply settled_start; [assumption|now_tac|exact I].
  - destruct (hasUnsavedChanges _) eqn:Hu; [|now apply settled_stay].
    apply settled_start; [assumption| |].
    + unfold handlePopState. destruct (blockNavigationRef _); now_tac.
    + unfold handlePopState. destruct (blockNavigationRef _); exact I.
  - destruct (uploadingImage _); [now apply settled_stay|].
    apply settled_start; [assumption| |apply steady_handleImageUpload].
    destruct file as [file|]; unfold handleImageUpload; [|now_tac].
    destruct (String.prefix _ _); cbn; [|now_tac].
    destruct (_ <? _)%Z; cbn; now_tac.
  - destruct (uploadingImage _); [now apply settled_stay|].
    destruct (truthy _); cbv beta iota; [|now apply settled_stay].
    apply settled_start; [assumption|unfold handleDeleteImage; now_tac|].
    apply steady_handleDeleteImage.
  - cbn in He. unfold settled_world, render; cbn.
    split; [|split; [|reflexivity]].
    + destruct (nth_error (inflight (loop w)) i) as [pd|] eqn:Hnth.
      * rewrite (state_settle (Sg := sg) handle i srv (loop w) pd Hnth).
        apply (tame_settled (Sg := sg) well_formed keeps_settled
                 i srv (loop w) pd He Hi Hnth).
        assumption.
      * rewrite state_settle_none by assumption.
        apply flush_settles; auto.
    + apply inflight_settle; assumption.
Qed.

Lemma page_invariant_step (w : World) (e : UiEvent) :
  well_formed_event e -> page_invariant w -> page_invariant (step w e).
Proof.
  intros He [Hw|[Hw|Hw]].
  - subst w. destruct e as [|v|v| | | | | |file| |i srv];
      try (left; reflexivity); [right; left; reflexivity|].
    left. destruct i; reflexivity.
  - subst w. destruct e as [|v|v| | | | | |file| |i srv];
      try (right; left; reflexivity).
    destruct i as [|i]; [|right; left; destruct i; reflexivity].
    right; right. cbn in He. specialize (He getProfile).
    unfold settled_world, step, render; cbn -[flush].
    destruct (srv getProfile) as [data|err]; cbn -[flush] in He |- *.
    + split; [|split; [constructor|reflexivity]].
      apply flush_settles; cbn; auto.
      unfold or_empty. destruct (truthy (full_name data)); [assumption|discriminate].
    + split; [|split; [constructor|reflexivity]].
      apply flush_settles; cbn; auto; discriminate.
  - right; right. now apply settled_step.
Qed.

Lemma page_invariant_steps (es : list UiEvent) (w : World) :
  Forall well_formed_event es -> page_invariant w -> page_invariant (steps w es).
Proof.
  intros Hes; revert w; induction Hes as [|e es He Hes IH]; intros w Hw; cbn; auto.
  apply IH, page_invariant_step; assumption.
Qed.

Lemma tracked_of_invariant (w : World) :
  page_invariant w ->
  deps_changed (state (loop w)) = false /\
  hasUnsavedChanges (state (loop w))
  = changed (profile (state (loop w))) (originalProfile (state (loop w))).
Proof.
  intros [Hw|[Hw|((_ & Hd & _ & _ & Hf) & _)]]; [subst w; split; reflexivity..|].
  split; assumption.
Qed.


Lemma well_formed_up : forall q, well_formed q (up q).
Proof. intros [| | |]; cbn; try exact I; discriminate. Qed.


(** Why the profile objects must carry full_name: without the key the
    effect's own guard ([originalProfile.full_name !== undefined]) stops the
    tracking once such a profile was saved. *)
Example tracking_stops_without_full_name :
  let s := state (loop (steps initial
                          [ev_mount; ev_response 0 nameless; ev_save_button;
                           ev_response 0 up; ev_change_email "j.doe@example.com"])) in
  email (profile s) = str "j.doe@example.com" /\
  o_email (originalProfile s) = str "jane@example.com" /\
  hasUnsavedChanges s = false.
Proof. repeat split; reflexivity. Qed.

(** An edit made while a save is in flight is not part of that save: the
    flag is true again once the save has succeeded. *)
Example edit_during_save :
  let s := state (loop (steps initial
                          [ev_mount; ev_response 0 up;
                           ev_change_email "j.doe@example.com"; ev_save_button;
                           ev_change_full_name "Jane D."; ev_response 0 up])) in
  originalProfile s = {| o_full_name := str "Jane Doe";
                         o_email := str "j.doe@example.com" |} /\
  full_name (profile s) = str "Jane D." /\
  hasUnsavedChanges s = true.
Proof. repeat split; reflexivity. Qed.

End ProfileProps.


(** ** More of the alert hook *)

Module HookMoreProps.
Import JS Async Async.Notations SOSAlerts SOSAlertsMore LoopFacts.
Local Open Scope async_scope.

Section Relations.
Variable R : option Applied -> HookState -> HookState -> Prop.
Hypothesis HR : safe_hook R.

Lemma safe_start (p : Async unit) (w : World) :
  safe R p -> safe_world R w ->
  R None (state (loop w)) (state (loop (start p w))) /\ safe_world R (start p w).
Proof.
  intros [Hnow Hp] Hw. unfold start, safe_world; cbn. split.
  - rewrite (state_advance (Sg := sg)). apply Hnow.
  - now apply inflight_advance.
Qed.

Lemma related_step (w : World) (e : LoopEvent) :
  safe_world R w ->
  R (response_at w e) (state (loop w)) (state (loop (step w e))) /\
  safe_world R (step w e).
Proof.
  destruct HR as (Hrefl & Hpoll & Hload & Hfirst & Hhist & Hop).
  intros Hw. destruct e as [| | |op|i srv]; unfold response_at; cbn [step response_of].
  - destruct (phase w); try (split; [apply Hrefl|exact Hw]).
    unfold mount_effect, loadData, safe_world; cbn [loop].
    destruct (safe_start _ w Hload Hw) as [H1 Hw1].
    destruct (safe_start _ _ Hfirst Hw1) as [_ Hw2].
    destruct (safe_start _ _ Hhist Hw2) as [_ Hw3].
    split; [|exact Hw3].
    unfold start in *; cbn [loop with_loop] in *.
    rewrite !(state_advance (Sg := sg)) in *. exact H1.
  - destruct (phase w); split; try apply Hrefl; exact Hw.
  - destruct (interval_running w); [|split; [apply Hrefl|exact Hw]].
    now apply safe_start.
  - now apply safe_start.
  - unfold safe_world, with_loop; cbn [loop].
    destruct (nth_error (inflight (loop w)) i) as [pd|] eqn:Hi.
    + split.
      * rewrite (state_settle (Sg := sg) handle i srv (loop w) pd Hi).
        apply (tame_settled (Sg := sg) any_outcome (keeps R) i srv (loop w) pd);
          [intros q; exact I|exact Hw|exact Hi].
      * apply inflight_settle; [intros q; exact I|exact Hw].
    + rewrite state_settle_none by assumption. split; [apply Hrefl|exact Hw].
Qed.

End Relations.

Lemma isTestMode_handle (a : Action) (s : HookState) :
  isTestMode (handle a s)
  = match a with setIsTestMode v => v | _ => isTestMode s end.
Proof.
  destruct a; cbn; auto.
  destruct (loadData_waiting s) as [|[|n]]; reflexivity.
Qed.

Lemma alertHistory_handle (a : Action) (s : HookState) :
  alertHistory (handle a s)
  = match a with setAlertHistory v => v | _ => alertHistory s end.
Proof.
  destruct a; cbn; auto.
  destruct (loadData_waiting s) as [|[|n]]; reflexivity.
Qed.

Ltac safe_tac tac :=
  repeat match goal with
  | |- safe _ _ => split
  | |- forall _, _ => intro
  | o : Async.Outcome _ (option _) |- _ => destruct o as [[?|]|?]
  | o : Async.Outcome _ _ |- _ => destruct o
  | |- _ /\ _ => split
  | |- True => exact I
  | |- keeps _ _ _ _ => intro; tac
  | |- hereditarily _ _ _ => progress cbn
  | |- _ => solve [tac]
  end.

Ltac safe_programs tac :=
  refine (conj _ (conj _ (conj _ (conj _ (conj _ _)))));
  [ intros s; tac
  | safe_tac tac | safe_tac tac | safe_tac tac | safe_tac tac
  | intros op s;
    destruct op as [options|alertId|alertId resolvedBy notes| | |newLocation];
    cbn [invoke];
    [ unfold triggerAlert, alertData_of;
      destruct (opt_location options) as [loc|]; cbn;
      [destruct (truthy (address loc)); cbn|]
    | | | destruct (activeAlert s) | | destruct (activeAlert s) ];
    safe_tac tac ].

Ltac history_tac :=
  unfold history_as_written; cbn -[handle];
  rewrite ?alertHistory_handle; reflexivity.

Lemma safe_hook_history : safe_hook history_as_written.
Proof. safe_programs history_tac. Qed.

Ltac test_mode_tac :=
  unfold keeps_test_mode, test_mode_sound; cbn -[handle];
  rewrite ?isTestMode_handle, ?HookLoopProps.activeAlert_handle;
  intros; eauto; discriminate.

Lemma safe_hook_test_mode : safe_hook keeps_test_mode.
Proof. safe_programs test_mode_tac. Qed.

Lemma last_history_app (cur : list Alert) (rs rs' : list Applied) :
  last_history cur (rs ++ rs')%list = last_history (last_history cur rs) rs'.
Proof. apply fold_left_app. Qed.

Lemma history_steps (es : list LoopEvent) (w : World) :
  safe_world history_as_written w ->
  alertHistory (state (loop (steps w es)))
  = last_history (alertHistory (state (loop w))) (applied w es).
Proof.
  revert w; induction es as [|e es IH]; intros w Hw; cbn [steps fold_left applied].
  - reflexivity.
  - destruct (related_step _ safe_hook_history w e Hw) as [Hh Hw'].
    fold (steps (step w e) es). rewrite (IH _ Hw'), last_history_app, Hh.
    f_equal. unfold response_at, history_as_written.
    destruct e; cbn [response_of]; try reflexivity.
    destruct (nth_error _ _); reflexivity.
Qed.


Lemma test_mode_steps (es : list LoopEvent) (w : World) :
  safe_world keeps_test_mode w ->
  test_mode_sound (state (loop w)) ->
  test_mode_sound (state (loop (steps w es))).
Proof.
  revert w; induction es as [|e es IH]; intros w Hw Hs; cbn [steps fold_left]; auto.
  destruct (related_step _ safe_hook_test_mode w e Hw) as [Hh Hw'].
  apply (IH _ Hw'), Hh, Hs.
Qed.

(** X2: in every state the loop reaches from the first render, test mode is
    on only while the active-alert slot holds an alert. *)
Theorem test_mode_needs_alert (es : list LoopEvent) :
  let s := state (loop (steps initial es)) in
  isTestMode s = true -> exists a, activeAlert s = Some a.
Proof.
  intros s. apply (test_mode_steps es initial); [constructor|].
  intros H; discriminate H.
Qed.

Lemma test_mode_needs_alert_witness :
  exists a,
    activeAlert (state (loop (steps initial [ev_mount; ev_response 0 testing])))
    = Some a.
Proof.
  apply (test_mode_needs_alert [ev_mount; ev_response 0 testing]). reflexivity.
Defined.


(** A call of the hook, run against a server. *)
Ltac run_call :=
  cbv [acknowledgeAlert resolveAlert cancelAlert clearHistory
       updateAlertLocation triggerAlert fetchAlertHistory fetchActiveAlert
       invoke await perform void SOSAlerts.after toasts default_arg];
  cbn [Async.await Async.perform Async.bind Async.try_catch Async.run
       Async.void fst snd].

Ltac by_response :=
  match goal with
  | |- context [?srv ?q] =>
      match type of srv with
      | Server => destruct (srv q) eqn:?
      end
  end.

(** X3: triggerAlert called without a location, or with one that has a
    (non-empty) address, issues the create request and nothing else: the
    geocoder is not asked, and the payload is the one built from the
    options. *)
Theorem triggerAlert_without_lookup (options : Options) (srv : Server) :
  (forall loc, opt_location options = Some loc -> truthy (address loc) = true) ->
  requests (fst (run srv (triggerAlert options)))
  = [createAlert (alertData_of options)].
Proof.
  intros H. run_call.
  destruct (opt_location options) as [loc|] eqn:Hloc.
  - unfold alertData_of at 1. rewrite Hloc. cbn. rewrite (H loc eq_refl). cbn.
    by_response; cbn; reflexivity.
  - unfold alertData_of at 1. rewrite Hloc. cbn.
    by_response; cbn; reflexivity.
Qed.

Lemma triggerAlert_without_lookup_witness :
  let options :=
    {| isTest := None;
       opt_location := Some {| lat := 38.72%float; lng := (-9.14)%float;
                               address := Some "Rua Augusta, Lisboa" |};
       batteryLevel := None; connectionStatus := None |} in
  requests (fst (run up_without_geocoder (triggerAlert options)))
  = [createAlert (alertData_of options)].
Proof.
  intros options. apply (triggerAlert_without_lookup options).
  intros loc [= <-]. reflexivity.
Defined.



(** X5: with an empty slot, cancelAlert and updateAlertLocation do nothing
    at all: no request, no state change, a fulfilled promise.  With an alert
    in the slot, updateAlertLocation sends one update that carries the
    location only, to the id of that alert; a success puts the server's
    alert in the slot, a failure leaves the state as it was. *)
Theorem slot_bound_calls (s : HookState) (newLocation : Location) (srv : Server) :
  match activeAlert s with
  | None =>
      run srv (invoke op_cancelAlert s) = ([], Fulfilled tt) /\
      run srv (invoke (op_updateAlertLocation newLocation) s) = ([], Fulfilled tt)
  | Some a =>
      let q := updateAlert (id a)
                 {| u_status := None; u_resolved_by := None;
                    u_notes := None; u_location := Some newLocation |} in
      let l := fst (run srv (invoke (op_updateAlertLocation newLocation) s)) in
      requests l = [q] /\
      match srv q with
      | Fulfilled a' =>
          after s l
          = {| activeAlert := Some a'; alertHistory := alertHistory s;
               isLoading := isLoading s; isTestMode := isTestMode s;
               loadData_waiting := loadData_waiting s |}
      | Rejected _ => after s l = s
      end
  end.
Proof.
  destruct s as [[a|] sh sl st sw]; cbn [activeAlert invoke].
  - cbv zeta. run_call. unfold just_location.
    by_response; cbn; split; reflexivity.
  - split; reflexivity.
Qed.

Section DurationFacts.
Variable Date_parse : string -> option Z.
Variable now : Z.

(** X6: for an alert whose start and end dates are valid, with d the
    milliseconds between them (the end being resolved_at, or now without
    one): below one minute (also when negative) the text is "Less than 1m";
    from one minute to below one hour it is the whole minutes and "m"; from
    one hour on it is "<H>h <M>m" with M below 60 and 60 H + M the whole
    minutes of d. *)
Theorem getAlertDuration_format (alert : Alert) (start stop : Z) :
  Date_parse (timestamp alert) = Some start ->
  end_time Date_parse now alert = Some stop ->
  let d := (stop - start)%Z in
  let text := getAlertDuration Date_parse now (Some alert) in
  ((d < 60000)%Z -> text = "Less than 1m") /\
  ((60000 <= d < 3600000)%Z ->
   text = show (d / 60000) ++ "m" /\ (1 <= d / 60000 < 60)%Z) /\
  ((3600000 <= d)%Z ->
   exists H M : Z,
     text = show H ++ "h " ++ show M ++ "m" /\
     (1 <= H)%Z /\ (0 <= M < 60)%Z /\ (60 * H + M = d / 60000)%Z).
Proof.
  intros Hs He d text; subst text. unfold getAlertDuration. rewrite Hs, He.
  fold d. cbv zeta.
  split; [|split].
  - intros Hd.
    assert (d / 60000 <= 0)%Z by (apply Z.lt_succ_r; apply Z.div_lt_upper_bound; lia).
    assert (d / 60000 / 60 <= 0)%Z by (apply Z.lt_succ_r; apply Z.div_lt_upper_bound; lia).
    destruct (Z.ltb_spec 0 (d / 60000 / 60)); [lia|].
    destruct (Z.ltb_spec 0 (d / 60000)); [lia|reflexivity].
  - intros Hd.
    assert (1 <= d / 60000 < 60)%Z.
    { split; [apply Z.div_le_lower_bound; lia|apply Z.div_lt_upper_bound; lia]. }
    assert (d / 60000 / 60 = 0)%Z by (apply Z.div_small; lia).
    destruct (Z.ltb_spec 0 (d / 60000 / 60)); [lia|].
    destruct (Z.ltb_spec 0 (d / 60000)); [|lia]. now split.
  - intros Hd.
    assert (60 <= d / 60000)%Z by (apply Z.div_le_lower_bound; lia).
    assert (1 <= d / 60000 / 60)%Z by (apply Z.div_le_lower_bound; lia).
    destruct (Z.ltb_spec 0 (d / 60000 / 60)); [|lia].
    exists (d / 60000 / 60)%Z, (Z.rem (d / 60000) 60).
    rewrite Z.rem_mod_nonneg by lia.
    pose proof (Z.mod_pos_bound (d / 60000) 60 ltac:(lia)).
    pose proof (Z.div_mod (d / 60000) 60 ltac:(lia)).
    repeat split; try lia.
Qed.

End DurationFacts.

Lemma getAlertDuration_format_witness :
  exists H M : Z,
    getAlertDuration parse_example 1740830730000%Z (Some test_alert)
    = show H ++ "h " ++ show M ++ "m" /\
    (1 <= H)%Z /\ (0 <= M < 60)%Z /\ (60 * H + M = 7530000 / 60000)%Z.
Proof.
  apply (getAlertDuration_format parse_example 1740830730000%Z test_alert
           1740823200000%Z 1740830730000%Z eq_refl eq_refl).
  cbn. lia.
Defined.

(** X27: the first load.  At mount both fetches are in flight and isLoading
    is true; it is still true when either one of them has settled, whatever
    its outcome, and false once both have, in either order and whatever
    their outcomes. *)
Theorem loading_waits_for_both_fetches (first second : Server) :
  let loading es := isLoading (state (loop (steps initial es))) in
  map request (inflight (loop (steps initial [ev_mount])))
  = [getActiveAlert; getAlerts 50 resolved] /\
  loading [ev_mount] = true /\
  loading [ev_mount; ev_response 0 first] = true /\
  loading [ev_mount; ev_response 1 first] = true /\
  loading [ev_mount; ev_response 0 first; ev_response 0 second] = false /\
  loading [ev_mount; ev_response 1 first; ev_response 0 second] = false.
Proof.
  cbv zeta. cbn. unfold settle; cbn.
  destruct (first getActiveAlert) as [[a|]|e1], (first (getAlerts 50 resolved)) as [h|e2];
    cbn; unfold settle; cbn;
    destruct (second getActiveAlert) as [[a'|]|e1'], (second (getAlerts 50 resolved)) as [h'|e2'];
    cbn; repeat split; reflexivity.
Qed.

End HookMoreProps.

(** ** More of the reset-password form *)

Module ResetPasswordMoreProps.
Import JS Async ResetPassword.

Ltac unfold_submit :=
  unfold handleSubmit, perform, await, throw;
  cbn [Async.perform Async.await Async.bind Async.try_catch Async.try_finally
       Async.run fst snd].

(** X8: the reset form sends a request only when the two passwords are
    equal and at least 6 long; the first request then is a POST of the token
    and the new password to <base>/auth/reset-password, where base is
    VITE_API_URL when set and non-empty, else VITE_BASE_URL when set and
    non-empty, else http://localhost:8000. *)
Theorem handleSubmit_request
    (env : Env) (password confirmPassword token : string) (srv : Server) :
  match requests (fst (run srv (handleSubmit env password confirmPassword token))) with
  | [] => password <> confirmPassword \/ String.length password < 6
  | q :: _ =>
      password = confirmPassword /\ 6 <= String.length password /\
      exists base,
        q = fetch_post_json (base ++ "/auth/reset-password")
              {| b_token := token; new_password := password |} /\
        (forall u, VITE_API_URL env = Some u -> u <> "" -> base = u) /\
        (forall b, VITE_API_URL env = None \/ VITE_API_URL env = Some "" ->
                   VITE_BASE_URL env = Some b -> b <> "" -> base = b) /\
        (VITE_API_URL env = None \/ VITE_API_URL env = Some "" ->
         VITE_BASE_URL env = None \/ VITE_BASE_URL env = Some "" ->
         base = "http://localhost:8000")
  end.
Proof.
  unfold_submit.
  destruct (String.eqb_spec password confirmPassword) as [Heq|Hne]; cbn [negb].
  2: { cbn. now left. }
  destruct (Nat.ltb_spec (String.length password) 6) as [Hlt|Hge].
  { cbn. now right. }
  cbn. destruct (srv (fetch_post_json _ _)) as [resp|e]; cbn.
  all: repeat match goal with
       | |- context [?f response_json] => destruct (f response_json); cbn
       | |- context [ok ?r] => destruct (ok r); cbn
       end.
  all: split; [assumption|split; [assumption|]].
  all: eexists; split; [reflexivity|].
  all: destruct env as [[u|] [b|]]; cbn; repeat split;
    try (intros; try discriminate; 
         repeat match goal with
                | H : _ \/ _ |- _ => destruct H
                | H : Some _ = Some _ |- _ => injection H as H; subst
                | H : Some _ = None |- _ => discriminate H
                | H : None = Some _ |- _ => discriminate H
                end;
         unfold or_default, truthy, truthy_string; cbn;
         repeat match goal with
                | |- context [String.eqb ?x ""] =>
                    destruct (String.eqb_spec x ""); subst; cbn
                end; congruence).
Qed.

(** X9: a valid submission always fulfils, and its log is: preventDefault,
    loading on, the request, what follows, loading off.  What follows is
    the success toast and the delayed navigation to /login when the response
    is ok and its JSON could be read; otherwise an error is logged and
    shown in one toast: the JSON's detail (or "Failed to reset password")
    for a response that is not ok, the error's message (or "Failed to reset
    password. Please try again." when it is empty) when the request or the
    reading of its JSON failed. *)
Theorem handleSubmit_outcomes
    (env : Env) (password token : string) (srv : Server) :
  6 <= String.length password ->
  let r := run srv (handleSubmit env password password token) in
  let shown (e : error) :=
    if String.eqb (message e) ""
    then "Failed to reset password. Please try again."
    else message e in
  snd r = Fulfilled tt /\
  exists url body,
    let q := fetch_post_json url {| b_token := token; new_password := password |} in
    fst r = (did preventDefault :: did (setIsLoading true) :: asked q :: body
             ++ [did (setIsLoading false)])%list /\
    match srv q with
    | Rejected e =>
        body = [did (console_error "Reset password error:" e);
                did (toast_error (shown e))]
    | Fulfilled response =>
        match srv response_json with
        | Rejected e =>
            body = [asked response_json;
                    did (console_error "Reset password error:" e);
                    did (toast_error (shown e))]
        | Fulfilled data =>
            if ok response then
              body = [asked response_json;
                      did (toast_success "Password reset successfully!");
                      did (setTimeout_navigate "/login" 2000)]
            else
              exists msg,
                body = [asked response_json;
                        did (console_error "Reset password error:"
                               {| message := msg |});
                        did (toast_error msg)] /\
                (forall d, detail data = Some d -> d <> "" -> msg = d) /\
                (detail data = None \/ detail data = Some "" ->
                 msg = "Failed to reset password")
        end
    end.
Proof.
  intros Hlen r shown; subst r. unfold_submit.
  rewrite String.eqb_refl. cbn [negb].
  apply Nat.ltb_ge in Hlen. rewrite Hlen.
  cbn [Async.perform Async.await Async.bind Async.try_catch Async.try_finally
       Async.run fst snd].
  match goal with
  | |- context [srv ?q0] =>
      destruct (srv q0) as [response|e] eqn:Hq
  end; cbn.
  - destruct (srv response_json) as [data|e] eqn:Hj; cbn.
    + destruct (ok response) eqn:Hok; cbn.
      * split; [reflexivity|]. eexists _, [_; _; _]. split; [reflexivity|].
        cbv zeta. rewrite Hq, Hok. reflexivity.
      * split; [reflexivity|]. eexists _, [_; _; _]. split; [reflexivity|].
        cbv zeta. rewrite Hq, Hok.
        exists (or_default (detail data) "Failed to reset password").
        unfold or_default, truthy, truthy_string.
        destruct (detail data) as [d|]; cbn.
        -- destruct (String.eqb_spec d ""); subst; cbn.
           ++ split; [reflexivity|].
              split; [intros ? [= <-]; congruence|auto].
           ++ destruct (String.eqb_spec d ""); [congruence|]. cbn.
              split; [reflexivity|]. split; [intros ? [= <-]; auto|].
              intros [H|[= H]]; [discriminate|congruence].
        -- split; [reflexivity|]. split; [intros; discriminate|auto].
    + split; [reflexivity|]. eexists _, [_; _; _]. split; [reflexivity|].
      cbv zeta. rewrite Hq. unfold shown, or_default, truthy, truthy_string.
      destruct (String.eqb (message e) ""); reflexivity.
  - split; [reflexivity|]. eexists _, [_; _]. split; [reflexivity|].
    cbv zeta. rewrite Hq. unfold shown, or_default, truthy, truthy_string.
    destruct (String.eqb (message e) ""); reflexivity.
Qed.

Lemma handleSubmit_outcomes_witness :
  snd (run unreachable (handleSubmit no_env "abcdef" "abcdef" "t0k3n")) = Fulfilled tt.
Proof.
  exact (proj1 (handleSubmit_outcomes no_env "abcdef" "t0k3n" unreachable (le_n 6))).
Defined.


End ResetPasswordMoreProps.

(** ** More of the profile page *)

Module ProfileMoreProps.
Import JS Async Async.Notations ProfileSettings ProfileSettingsMore LoopFacts.
Local Open Scope async_scope.

Lemma flush_synced (s : State) :
  blockNavigationRef s = hasUnsavedChanges s -> guard_synced (flush s).
Proof.
  intros H. unfold guard_synced, flush.
  destruct (deps_changed s) eqn:Hd; [|auto].
  unfold track_changes.
  destruct (negb (loading s) && strict_neq _ undefined); cbn; auto.
Qed.

Ltac sync_tac :=
  unfold keeps_synced; intros;
  match goal with H : guard_synced _ |- _ => destruct H as [H _] end;
  apply flush_synced; cbn; auto.

Ltac synced_tac :=
  repeat match goal with
  | |- forall _, _ => intro
  | o : Async.Outcome _ _ |- _ => destruct o
  | |- _ /\ _ => split
  | |- True => exact I
  | |- keeps_synced _ _ _ => sync_tac
  | |- hereditarily _ _ _ => progress cbn
  end.

Ltac cases :=
  repeat match goal with
  | |- context [match ?x with Some _ => _ | None => _ end] => destruct x
  | |- context [if ?c then _ else _] => destruct c
  end.

Lemma synced_start (p : Async unit) (w : World) :
  synced_world w -> syncs p -> synced_world (render (start p w)).
Proof.
  intros (Hs & Hi) (Hnow & Hp). unfold synced_world, render, start; cbn.
  rewrite (state_advance (Sg := sg)). split.
  - apply Hnow, Hs.
  - apply inflight_advance; assumption.
Qed.

Lemma syncs_handlers :
  syncs fetchProfile /\
  (forall prof v, syncs (change_full_name prof v)) /\
  (forall prof v, syncs (change_email prof v)) /\
  (forall prof nav b, syncs (handleSave prof nav b)) /\
  (forall prof nav, syncs (perform (setShowUnsavedModal false) ;;; handleSave prof nav true)) /\
  (forall prof orig nav, syncs (handleDiscard prof orig nav)) /\
  syncs (perform (setShowUnsavedModal false) ;;; perform (setPendingNavigation None)) /\
  (forall b, syncs (handlePopState b)) /\
  (forall file, syncs (handleImageUpload file)) /\
  syncs handleDeleteImage /\
  syncs (Ret tt).
Proof.
  unfold syncs, fetchProfile, change_full_name, change_email, handleSave,
    handleDiscard, handlePopState, handleImageUpload, handleDeleteImage.
  repeat match goal with |- _ /\ _ => split end; intros; cases; try split;
    solve [sync_tac | cbn; synced_tac].
Qed.

Lemma synced_step (w : World) (e : UiEvent) :
  synced_world w -> synced_world (step w e).
Proof.
  destruct syncs_handlers
    as (Hf & Hn & He & Hs & Hms & Hd & Hc & Hp & Hu & Hdel & Hret).
  intros Hw. pose proof Hw as (Hsy & Hi). unfold step.
  assert (Hstay : synced_world (render w)) by exact (synced_start (Ret tt) w Hw Hret).
  destruct e as [|v|v| | | | | |file| |i srv]; cbn [dispatch];
    repeat match goal with
           | |- synced_world (render (if ?c then _ else _)) => destruct c
           end;
    try exact Hstay; try (apply synced_start; auto).
  - unfold synced_world, render; cbn. split.
    + destruct (nth_error (inflight (loop w)) i) as [pd|] eqn:Hnth.
      * rewrite (state_settle (Sg := sg) handle i srv (loop w) pd Hnth).
        apply (tame_settled (Sg := sg) any_outcome keeps_synced
                 i srv (loop w) pd); auto. intros q; exact I.
      * rewrite state_settle_none by assumption. apply flush_synced, Hsy.
    + apply inflight_settle; auto. intros q; exact I.
Qed.

Lemma synced_steps (es : list UiEvent) (w : World) :
  synced_world w -> synced_world (steps w es).
Proof.
  revert w; induction es as [|e es IH]; intros w Hw; cbn; auto.
  apply IH, synced_step, Hw.
Qed.

Lemma synced_initial : synced_world initial.
Proof. split; [split; reflexivity|constructor]. Qed.

(** X10: in every state the page reaches from its first render, the
    beforeunload handler holds the browser back (preventDefault and an empty
    returnValue) exactly when the page shows unsaved changes: the ref the
    handler reads and the flag never part. *)
Theorem unload_guard_follows_flag (es : list UiEvent) :
  let s := state (loop (steps initial es)) in
  handleBeforeUnload (blockNavigationRef s)
  = if hasUnsavedChanges s then [preventDefault; set_returnValue ""] else [].
Proof.
  intros s. destruct (synced_steps es initial synced_initial) as [[H _] _].
  fold s in H. unfold handleBeforeUnload. now rewrite H.
Qed.

(** X11: the back button, in any state the page reaches.  With unsaved
    changes the popstate handler pushes the page back on the history stack,
    opens the unsaved-changes modal and holds "back" as the pending
    navigation; the profile, the saved copy and the flag stay as they are
    and nothing is navigated.  Without unsaved changes no listener is
    registered: state and log stay as they are. *)
Theorem back_button_guard (es : list UiEvent) :
  let w := steps initial es in
  let s := state (loop w) in
  let w' := step w ev_popstate in
  let s' := state (loop w') in
  if hasUnsavedChanges s then
    showUnsavedModal s' = true /\
    pendingNavigation s' = Some back /\
    profile s' = profile s /\
    originalProfile s' = originalProfile s /\
    hasUnsavedChanges s' = true /\
    exists l, history (loop w') = (history (loop w) ++ l)%list /\
              In (EAct (Sg := sg) history_pushState) l /\
              navigations l = []
  else
    s' = s /\ history (loop w') = history (loop w).
Proof.
  cbv zeta. destruct (synced_steps es initial synced_initial) as [[Href Hd] _].
  generalize dependent (steps initial es). intros w Href Hd.
  unfold step; cbn [dispatch].
  destruct (hasUnsavedChanges (state (loop w))) eqn:Hu.
  - rewrite Href. unfold handlePopState, start, render; cbn.
    unfold flush; cbn. rewrite Hd, Hu.
    repeat split; try reflexivity.
    eexists [_; _; _]. rewrite <- !app_assoc. cbn.
    split; [reflexivity|]. split; [now left|reflexivity].
  - unfold render; cbn. unfold flush. rewrite Hd. split; reflexivity.
Qed.


(** X12: Discard in the open modal puts the saved name and email back in
    the profile (its other fields stay), leaves the saved copy alone, and
    the render that follows finds no change: the flag and the unload ref
    are off and the modal is closed.  A pending navigation that is truthy is
    carried out once and forgotten; an empty route is neither. *)
Theorem discard_restores_saved (w : World) :
  let s := state (loop w) in
  let w' := step w ev_modal_discard in
  let s' := state (loop w') in
  loading s = false -> showUnsavedModal s = true ->
  full_name (profile s') = o_full_name (originalProfile s) /\
  email (profile s') = o_email (originalProfile s) /\
  created_at (profile s') = created_at (profile s) /\
  profile_image_url (profile s') = profile_image_url (profile s) /\
  originalProfile s' = originalProfile s /\
  hasUnsavedChanges s' = false /\
  blockNavigationRef s' = false /\
  showUnsavedModal s' = false /\
  exists l, history (loop w') = (history (loop w) ++ l)%list /\
    match pendingNavigation s with
    | Some to =>
        if truthy to
        then navigations l = [to] /\ pendingNavigation s' = None
        else navigations l = [] /\ pendingNavigation s' = Some to
    | None => navigations l = [] /\ pendingNavigation s' = None
    end.
Proof.
  cbv zeta. intros Hl Hm. unfold step; cbn [dispatch]. rewrite Hl, Hm. cbn [negb andb].
  unfold handleDiscard, start, render.
  destruct (pendingNavigation (state (loop w))) as [to|] eqn:Hp;
    [destruct (truthy to) eqn:Ht|]; cbn; unfold flush; cbn;
    unfold track_changes; cbn; rewrite Hl; cbn;
    destruct (strict_neq (o_full_name (originalProfile (state (loop w)))) undefined);
    cbn; unfold changed; cbn; rewrite ?ProfileProps.strict_neq_refl; cbn;
    repeat (split; [reflexivity|]).
  all: rewrite <- ?app_assoc; cbn.
  all: try (eexists [_; _; _; _; _; _]; split; [reflexivity|]; cbn; split; congruence).
  all: try (eexists [_; _; _; _]; split; [reflexivity|]; cbn; split; congruence).
Qed.

Lemma discard_restores_saved_witness :
  let w := steps initial [ev_mount; ev_response 0 up; ev_change_email "j@example.com";
                          ev_popstate] in
  full_name (profile (state (loop (step w ev_modal_discard)))) = str "Jane Doe" /\
  email (profile (state (loop (step w ev_modal_discard)))) = str "jane@example.com".
Proof.
  cbv zeta.
  pose proof (discard_restores_saved
                (steps initial [ev_mount; ev_response 0 up;
                                ev_change_email "j@example.com"; ev_popstate])
                eq_refl eq_refl) as (H1 & H2 & _).
  split; [exact H1|exact H2].
Defined.

(** X13: the first load.  Once the profile fetched at mount has arrived,
    the page shows it, and it shows unsaved changes exactly when the
    server's full_name or email is no string (null or missing): the saved
    copy holds the empty string for such a field, the profile the field
    itself.  The unload ref agrees with the flag. *)
Theorem missing_field_loads_dirty (srv : Server) (data : Profile) :
  srv getProfile = Fulfilled data ->
  let s := state (loop (steps initial [ev_mount; ev_response 0 srv])) in
  loading s = false /\
  profile s = data /\
  hasUnsavedChanges s = negb (is_str (full_name data) && is_str (email data)) /\
  blockNavigationRef s = hasUnsavedChanges s.
Proof.
  intros Hq. cbn. unfold settle; cbn. rewrite Hq. cbn. unfold flush; cbn.
  unfold track_changes; cbn. unfold or_empty, changed; cbn.
  destruct data as [[| |[|? n]] [| |[|? e]] c u]; cbn;
    rewrite ?Ascii.eqb_refl, ?String.eqb_refl; cbn; auto.
Qed.

Lemma missing_field_loads_dirty_witness :
  hasUnsavedChanges (state (loop (steps initial [ev_mount; ev_response 0 unnamed]))) = true.
Proof.
  exact (proj1 (proj2 (proj2 (missing_field_loads_dirty unnamed _ eq_refl)))).
Defined.

(** X14: handleImageUpload always fulfils.  Without a file it does nothing.
    A file is uploaded when its type starts with image/ and its size is at
    most 5 * 1024 * 1024 bytes (that size included): one request, the
    uploading flag off at the end, the server's profile and a success
    message when it succeeds, the old profile and the error's detail (or
    "Failed to upload image") when it fails.  Any other file gets an error
    message only: no request, profile and uploading flag as they were. *)
Theorem handleImageUpload_validates (file : option File) (srv : Server) (s : State) :
  let r := run srv (handleImageUpload file) in
  let s' := after s (fst r) in
  snd r = Fulfilled tt /\
  match file with
  | None => fst r = []
  | Some f =>
      (String.prefix "image/" (f_type f) = true /\ (f_size f <= 5 * 1024 * 1024)%Z ->
       requests (fst r) = [uploadProfileImage f] /\
       uploadingImage s' = false /\
       match srv (uploadProfileImage f) with
       | Fulfilled data => profile s' = data /\ m_type (message s') = "success"
       | Rejected e =>
           profile s' = profile s /\
           message s' = {| m_type := "error";
                           m_text := or_default (detail e) "Failed to upload image" |}
       end) /\
      (~ (String.prefix "image/" (f_type f) = true /\ (f_size f <= 5 * 1024 * 1024)%Z) ->
       requests (fst r) = [] /\
       profile s' = profile s /\
       uploadingImage s' = uploadingImage s /\
       m_type (message s') = "error")
  end.
Proof.
  cbv zeta. unfold handleImageUpload.
  destruct file as [f|]; [|split; reflexivity].
  destruct (String.prefix "image/" (f_type f)) eqn:Hp; cbn [negb].
  - destruct (Z.ltb_spec (5 * 1024 * 1024) (f_size f)) as [Hz|Hz].
    + cbn. split; [reflexivity|]. split.
      * intros [_ H]. lia.
      * intros _. repeat split; reflexivity.
    + cbn. destruct (srv (uploadProfileImage f)) as [data|e] eqn:Hq; cbn;
        (split; [reflexivity|]); (split; [|intros H; exfalso; apply H; split; [reflexivity|lia]]);
        intros _; repeat split; reflexivity.
  - cbn. split; [reflexivity|]. split.
    + intros [H _]. discriminate.
    + intros _. repeat split; reflexivity.
Qed.

Lemma handleImageUpload_validates_witness :
  requests (fst (run up (handleImageUpload
                           (Some {| f_type := "image/png"; f_size := 5 * 1024 * 1024 |}))))
  = [uploadProfileImage {| f_type := "image/png"; f_size := 5 * 1024 * 1024 |}].
Proof.
  pose proof (handleImageUpload_validates
                (Some {| f_type := "image/png"; f_size := 5 * 1024 * 1024 |})
                up initial_state) as [_ [H _]].
  apply H. split; [reflexivity|]. cbn. lia.
Defined.

(** X15: handleSave always fulfils, sends one update with the name and
    email it closed over, and ends with saving off.  On success the saved
    copy is those two fields, the flag and the unload ref are off, and the
    pending navigation is carried out (once, then forgotten) exactly when
    the save was asked to navigate and the pending navigation is truthy.  On
    failure nothing is navigated, profile, saved copy, flag, ref and pending
    navigation are as they were, and the message is the error's detail or
    "Failed to update profile". *)
Theorem handleSave_navigates_after_success
    (prof : Profile) (nav : option Nav) (shouldNavigate : bool)
    (srv : Server) (s : State) :
  let q := updateProfile {| pu_full_name := full_name prof; pu_email := email prof |} in
  let r := run srv (handleSave prof nav shouldNavigate) in
  let s' := after s (fst r) in
  snd r = Fulfilled tt /\
  requests (fst r) = [q] /\
  saving s' = false /\
  match srv q with
  | Fulfilled _ =>
      originalProfile s' = {| o_full_name := full_name prof; o_email := email prof |} /\
      hasUnsavedChanges s' = false /\
      blockNavigationRef s' = false /\
      match nav with
      | Some to =>
          if shouldNavigate && truthy to
          then navigations (fst r) = [to] /\ pendingNavigation s' = None
          else navigations (fst r) = [] /\ pendingNavigation s' = pendingNavigation s
      | None => navigations (fst r) = [] /\ pendingNavigation s' = pendingNavigation s
      end
  | Rejected e =>
      navigations (fst r) = [] /\
      profile s' = profile s /\
      originalProfile s' = originalProfile s /\
      hasUnsavedChanges s' = hasUnsavedChanges s /\
      blockNavigationRef s' = blockNavigationRef s /\
      pendingNavigation s' = pendingNavigation s /\
      message s' = {| m_type := "error";
                      m_text := or_default (detail e) "Failed to update profile" |}
  end.
Proof.
  cbv zeta. unfold handleSave. cbn.
  destruct (srv (updateProfile _)) as [[]|e] eqn:Hq; cbn.
  - destruct nav as [to|]; [destruct (shouldNavigate && truthy to) eqn:Hn|];
      cbn; repeat split; reflexivity.
  - repeat split; reflexivity.
Qed.

End ProfileMoreProps.

(** ** The account modals *)

Module AccountModalsProps.
Import JS Async Async.Notations ProfileSettings AccountModals.
Local Open Scope async_scope.

(** X16: handleChangePassword always fulfils.  When the new password and
    its confirmation differ, only the message changes ("New passwords do not
    match") and nothing is sent; when they agree but are shorter than 6,
    likewise with "Password must be at least 6 characters".  Otherwise one
    request carries the current and the new password, saving is off at the
    end and the stored token is untouched; on success the three fields are
    emptied, the visibility toggles reset and the modal closed; on failure
    fields, toggles and modal stay and the message is the error's detail or
    "Failed to change password". *)
Theorem handleChangePassword_outcomes
    (pd : PasswordData) (srv : ModalServer) (s : ModalState) :
  let q := changePassword {| pc_current_password := current_password pd;
                             pc_new_password := new_password pd |} in
  let r := run srv (handleChangePassword pd) in
  let s' := after s (fst r) in
  snd r = Fulfilled tt /\
  (new_password pd <> confirm_password pd ->
   requests (fst r) = [] /\
   s' = handle (setMessage {| m_type := "error";
                              m_text := "New passwords do not match" |}) s) /\
  (new_password pd = confirm_password pd ->
   String.length (new_password pd) < 6 ->
   requests (fst r) = [] /\
   s' = handle (setMessage {| m_type := "error";
                              m_text := "Password must be at least 6 characters" |}) s) /\
  (new_password pd = confirm_password pd ->
   6 <= String.length (new_password pd) ->
   requests (fst r) = [q] /\
   m_saving s' = false /\
   stored_token s' = stored_token s /\
   match srv q with
   | Fulfilled _ =>
       passwordData s' = no_passwords /\
       showPasswords s' = none_shown /\
       showPasswordModal s' = false /\
       m_message s' = success_message "Password changed successfully!"
   | Rejected e =>
       passwordData s' = passwordData s /\
       showPasswords s' = showPasswords s /\
       showPasswordModal s' = showPasswordModal s /\
       m_message s' = {| m_type := "error";
                         m_text := or_default (detail e) "Failed to change password" |}
   end).
Proof.
  cbv zeta. unfold handleChangePassword.
  destruct (String.eqb_spec (new_password pd) (confirm_password pd)) as [He|He];
    cbn [negb].
  - destruct (Nat.ltb_spec (String.length (new_password pd)) 6) as [Hl|Hl].
    + cbn. split; [reflexivity|]. split; [intros H; contradiction|].
      split; [intros _ _; split; reflexivity|]. intros _ H; lia.
    + cbn. destruct (srv (changePassword _)) as [[]|e] eqn:Hq; cbn;
        (split; [reflexivity|]); (split; [intros H; contradiction|]);
        (split; [intros _ H; lia|]); intros _ _; repeat split; reflexivity.
  - cbn. split; [reflexivity|]. split; [intros _; split; reflexivity|].
    split; intros H; contradiction.
Qed.

(** X17: handleDeleteAccount always fulfils, and sends the delete request
    exactly when the Delete button is enabled, that is when the text typed
    is DELETE (capitals).  For any other text it only sets the message
    "Please type DELETE to confirm".  On success the token is removed from
    local storage and the location set to /login; on failure token and
    location are as they were and the message is the error's detail or
    "Failed to delete account". *)
Theorem handleDeleteAccount_outcomes
    (text : string) (srv : ModalServer) (s : ModalState) :
  let r := run srv (handleDeleteAccount text) in
  let s' := after s (fst r) in
  snd r = Fulfilled tt /\
  requests (fst r) = (if delete_button_disabled text then [] else [deleteAccount]) /\
  (delete_button_disabled text = false <-> text = "DELETE") /\
  (text <> "DELETE" ->
   stored_token s' = stored_token s /\ location_href s' = location_href s /\
   m_message s' = {| m_type := "error"; m_text := "Please type DELETE to confirm" |}) /\
  (text = "DELETE" ->
   match srv deleteAccount with
   | Fulfilled _ =>
       stored_token s' = None /\ location_href s' = Some "/login" /\
       m_message s' = m_message s
   | Rejected e =>
       stored_token s' = stored_token s /\ location_href s' = location_href s /\
       m_message s' = {| m_type := "error";
                         m_text := or_default (detail e) "Failed to delete account" |}
   end).
Proof.
  cbv zeta. unfold handleDeleteAccount, delete_button_disabled.
  destruct (String.eqb_spec text "DELETE") as [He|He]; cbn [negb].
  - cbn. destruct (srv deleteAccount) as [[]|e] eqn:Hq; cbn;
      (split; [reflexivity|]); (split; [reflexivity|]);
      (split; [split; auto|]); (split; [intros H; contradiction|]);
      intros _; repeat split; reflexivity.
  - cbn. split; [reflexivity|]. split; [reflexivity|].
    split; [split; [discriminate|intros H; contradiction]|].
    split; [intros _; repeat split; reflexivity|intros H; contradiction].
Qed.

End AccountModalsProps.

(** ** The face-recognition page *)

Module FacePageProps.
Import JS Async Async.Notations FaceRecognition FacePage.
Local Open Scope async_scope.

Lemma truthy_string_spec (v : string) : truthy v = false <-> v = "".
Proof. destruct v; cbn; split; congruence. Qed.

(** X18: handleRegister always fulfils.  Without a file, or with an empty
    name or relation, it only sets the status "Please fill all fields and
    select an image." and sends nothing.  Otherwise it posts name, relation
    and file to <VITE_API_BASE_URL>/face/register once and ends with
    isRegistering off; on success the status names the person as the server
    returned it and the form is emptied; on failure the form stays and the
    status is the error's detail or "Registration failed.". *)
Theorem handleRegister_outcomes
    (env : Env) (name relation : string) (file : option Image)
    (srv : Server) (s : PageState) :
  let r := run srv (handleRegister env name relation file) in
  let s' := after s (fst r) in
  snd r = Fulfilled tt /\
  match file with
  | Some f =>
      (name = "" \/ relation = "" ->
       requests (fst r) = [] /\
       s' = handle (setRegStatus
                      {| st_type := "error";
                         st_message := "Please fill all fields and select an image." |}) s) /\
      (name <> "" /\ relation <> "" ->
       let q := post_register (interpolate (VITE_API_BASE_URL env) ++ "/face/register")
                              name relation f in
       requests (fst r) = [q] /\
       isRegistering s' = false /\
       recognitionResult s' = recognitionResult s /\
       match srv q with
       | Fulfilled data =>
           regStatus s' = {| st_type := "success";
                             st_message := "Successfully registered " ++ r_name data ++ "!" |} /\
           name_field s' = "" /\ relation_field s' = "" /\ FacePage.file s' = None
       | Rejected err =>
           regStatus s' = {| st_type := "error";
                             st_message := or_default (detail err) "Registration failed." |} /\
           name_field s' = name_field s /\ relation_field s' = relation_field s /\
           FacePage.file s' = FacePage.file s
       end)
  | None =>
      requests (fst r) = [] /\
      s' = handle (setRegStatus
                     {| st_type := "error";
                        st_message := "Please fill all fields and select an image." |}) s
  end.
Proof.
  cbv zeta. unfold handleRegister.
  destruct file as [f|]; [|cbn; repeat split; reflexivity].
  destruct (truthy name) eqn:Hn; [destruct (truthy relation) eqn:Hr|]; cbn [negb orb].
  - assert (name <> "") by (intros ->; discriminate).
    assert (relation <> "") by (intros ->; discriminate).
    cbn. destruct (srv (post_register _ name relation f)) as [data|err] eqn:Hq; cbn;
      (split; [reflexivity|]); (split; [intros [?|?]; contradiction|]);
      intros _; repeat split; reflexivity.
  - apply truthy_string_spec in Hr. cbn. split; [reflexivity|].
    split; [intros _; split; reflexivity|intros [_ ?]; contradiction].
  - apply truthy_string_spec in Hn. cbn. split; [reflexivity|].
    split; [intros _; split; reflexivity|intros [? _]; contradiction].
Qed.

(** X19: one tick of the recognition interval.  A frame is sent for
    recognition only when there is a video that is neither paused nor
    ended, a canvas, a frame of non-zero width and height, and the canvas
    gave a blob; then exactly one is, to <VITE_API_BASE_URL>/face/recognize,
    and the state changes only by a successful response becoming the
    recognition result.  In every other case the state is as it was; the
    tick rejects only if reading the canvas does. *)
Theorem recognition_tick_outcomes
    (env : Env) (video : option Video) (canvas : bool)
    (srv : Server) (s : PageState) :
  let r := run srv (recognition_tick env video canvas) in
  let s' := after s (fst r) in
  let recognize := filter is_recognize (requests (fst r)) in
  match video with
  | Some v =>
      if negb (paused v) && negb (ended v) && canvas
         && negb (videoWidth v =? 0)%Z && negb (videoHeight v =? 0)%Z
      then
        match srv (canvas_toBlob (videoWidth v) (videoHeight v)) with
        | Fulfilled (Some b) =>
            let q := post_recognize
                       (interpolate (VITE_API_BASE_URL env) ++ "/face/recognize") b in
            recognize = [q] /\
            snd r = Fulfilled tt /\
            s' = match srv q with
                 | Fulfilled data => handle (setRecognitionResult (Some data)) s
                 | Rejected _ => s
                 end
        | Fulfilled None => recognize = [] /\ snd r = Fulfilled tt /\ s' = s
        | Rejected e => recognize = [] /\ snd r = Rejected e /\ s' = s
        end
      else fst r = [] /\ snd r = Fulfilled tt
  | None => fst r = [] /\ snd r = Fulfilled tt
  end.
Proof.
  cbv zeta. unfold recognition_tick, captureFrame.
  destruct video as [v|]; [|split; reflexivity].
  destruct (paused v), (ended v), canvas; cbn [negb andb orb];
    try (split; reflexivity).
  destruct (videoWidth v =? 0)%Z, (videoHeight v =? 0)%Z; cbn [negb andb orb];
    try (split; reflexivity).
  cbn. destruct (srv (canvas_toBlob _ _)) as [[b|]|e] eqn:Hb; cbn;
    try (repeat split; reflexivity).
  destruct (srv (post_recognize _ b)) as [data|e] eqn:Hq; cbn;
    repeat split; reflexivity.
Qed.



End FacePageProps.

(** ** The SOS settings page *)

Module SOSSettingsProps.
Import JS Async Async.Notations SOSSettings.
Local Open Scope async_scope.

Lemma truthy_empty (v : string) : truthy v = false <-> v = "".
Proof. destruct v; cbn; split; congruence. Qed.

(** X21: fetchData always fulfils, asks for the contacts and for the
    configuration (for both, also when the first fails), and ends with
    loading off.  When both succeed the contacts are the list received (the
    empty list for none) and the configuration is the one received (the one
    the function closed over for none), with no toast; when either fails
    neither is touched and the toast is "Failed to load SOS settings". *)
Theorem fetchData_all_or_nothing (config0 : Config) (srv : Server) (s : State) :
  let r := run srv (fetchData config0) in
  let s' := after s (fst r) in
  snd r = Fulfilled tt /\
  requests (fst r) = [getContacts; getConfig] /\
  loading s' = false /\
  match srv getContacts, srv getConfig with
  | Fulfilled cs, Fulfilled c =>
      contacts s' = match cs with Some l => l | None => [] end /\
      config s' = match c with Some c => c | None => config0 end /\
      toasts (fst r) = []
  | _, _ =>
      contacts s' = contacts s /\
      config s' = config s /\
      toasts (fst r) = [toast_error "Failed to load SOS settings"]
  end.
Proof.
  cbv zeta. unfold fetchData, await_all. cbn.
  destruct (srv getContacts) as [cs|e1], (srv getConfig) as [c|e2]; cbn;
    repeat split; reflexivity.
Qed.

(** X22: handleAddContact always fulfils.  With an empty name or phone it
    shows "Name and phone number are required" and changes nothing.
    Otherwise it sends the form once and ends with saving off; on success
    the contact the server returned is appended to the list the handler
    closed over, the modal closes and the form is blank again; on failure
    list, modal and form are as they were. *)
Theorem handleAddContact_outcomes
    (shown : list Contact) (nc : NewContact) (srv : Server) (s : State) :
  let r := run srv (handleAddContact shown nc) in
  let s' := after s (fst r) in
  snd r = Fulfilled tt /\
  (n_name nc = "" \/ n_phone nc = "" ->
   requests (fst r) = [] /\ s' = s /\
   toasts (fst r) = [toast_error "Name and phone number are required"]) /\
  (n_name nc <> "" /\ n_phone nc <> "" ->
   requests (fst r) = [createContact nc] /\
   saving s' = false /\
   match srv (createContact nc) with
   | Fulfilled c =>
       contacts s' = (shown ++ [c])%list /\
       showAddModal s' = false /\
       newContact s' = blank_contact /\
       toasts (fst r) = [toast_success "Emergency contact added successfully"]
   | Rejected _ =>
       contacts s' = contacts s /\
       showAddModal s' = showAddModal s /\
       newContact s' = newContact s /\
       toasts (fst r) = [toast_error "Failed to add emergency contact"]
   end).
Proof.
  cbv zeta. unfold handleAddContact.
  destruct (truthy (n_name nc)) eqn:Hn; [destruct (truthy (n_phone nc)) eqn:Hp|];
    cbn [negb orb].
  - assert (n_name nc <> "") by (intros E; rewrite E in Hn; discriminate).
    assert (n_phone nc <> "") by (intros E; rewrite E in Hp; discriminate).
    cbn. destruct (srv (createContact nc)) as [c|e] eqn:Hq; cbn;
      (split; [reflexivity|]); (split; [intros [?|?]; contradiction|]);
      intros _; repeat split; reflexivity.
  - apply truthy_empty in Hp. cbn. split; [reflexivity|].
    split; [intros _; repeat split; reflexivity|intros [_ ?]; contradiction].
  - apply truthy_empty in Hn. cbn. split; [reflexivity|].
    split; [intros _; repeat split; reflexivity|intros [? _]; contradiction].
Qed.

(** X23: while the Add Contact button is enabled, nothing is being saved
    and the handler passes its own check: it sends the form. *)
Theorem add_button_guards_handler
    (shown : list Contact) (nc : NewContact) (srv : Server) (s : State) :
  add_button_disabled (saving s) nc = false ->
  requests (fst (run srv (handleAddContact shown nc))) = [createContact nc] /\
  saving s = false.
Proof.
  unfold add_button_disabled, handleAddContact. intros H.
  apply orb_false_iff in H as [H Hp]. apply orb_false_iff in H as [Hs Hn].
  rewrite Hn, Hp. cbn. split; [|exact Hs].
  destruct (srv (createContact nc)); reflexivity.
Qed.

Lemma add_button_guards_handler_witness :
  requests (fst (run up (handleAddContact [ana]
                           {| n_name := "Rui"; n_phone := "+351 910 000 002";
                              n_email := ""; n_relationship := ""; n_priority := 2 |})))
  = [createContact {| n_name := "Rui"; n_phone := "+351 910 000 002";
                      n_email := ""; n_relationship := ""; n_priority := 2 |}].
Proof.
  exact (proj1 (add_button_guards_handler [ana]
                  {| n_name := "Rui"; n_phone := "+351 910 000 002";
                     n_email := ""; n_relationship := ""; n_priority := 2 |}
                  up (listing [ana]) eq_refl)).
Defined.

Lemma In_without (contactId : Z) (l : list Contact) (c : Contact) :
  In c (without contactId l) <-> In c l /\ id c <> contactId.
Proof.
  unfold without. rewrite filter_In.
  destruct (Z.eqb_spec (id c) contactId); cbn; intuition congruence.
Qed.

(** X24: handleDeleteContact always fulfils and sends the delete request
    exactly when the user confirms.  On success the list is that of the
    contacts the handler closed over whose id differs from the one deleted
    (the very list when none has that id); on failure, and when the user
    declines, the state is as it was. *)
Theorem handleDeleteContact_outcomes
    (shown : list Contact) (contactId : Z) (answer : bool)
    (srv : Server) (s : State) :
  let r := run srv (handleDeleteContact shown contactId answer) in
  let s' := after s (fst r) in
  snd r = Fulfilled tt /\
  requests (fst r) = (if answer then [deleteContact contactId] else []) /\
  match answer, srv (deleteContact contactId) with
  | true, Fulfilled _ =>
      (forall c, In c (contacts s') <-> In c shown /\ id c <> contactId) /\
      ((forall c, In c shown -> id c <> contactId) -> contacts s' = shown) /\
      toasts (fst r) = [toast_success "Emergency contact removed"]
  | true, Rejected _ =>
      s' = s /\ toasts (fst r) = [toast_error "Failed to remove emergency contact"]
  | false, _ => s' = s /\ toasts (fst r) = []
  end.
Proof.
  cbv zeta. unfold handleDeleteContact.
  destruct answer; cbn [negb]; [|cbn; repeat split; reflexivity].
  cbn. destruct (srv (deleteContact contactId)) as [[]|e] eqn:Hq; cbn;
    (split; [reflexivity|]); (split; [reflexivity|]);
    [|split; reflexivity].
  split; [intros c; apply In_without|]. split; [|reflexivity].
  intros Hall. unfold without. clear Hq. induction shown as [|c l IH]; cbn; [reflexivity|].
  destruct (Z.eqb_spec (id c) contactId) as [E|E]; cbn.
  - exfalso. apply (Hall c); [now left|exact E].
  - f_equal. apply IH. intros c' Hc'. apply Hall. now right.
Qed.

(** X25: two deletions confirmed on the same render, of ids a and b, both
    accepted by the server, the first answered before the second.  Both
    requests are sent; after the first answer the list lacks a; after the
    second it is the list of that render without b: a contact with id a
    (a <> b) is shown again although the server deleted it. *)
Theorem overlapping_deletes_keep_first
    (shown : list Contact) (a b : Z) (srv : Server) :
  srv (deleteContact a) = Fulfilled tt ->
  srv (deleteContact b) = Fulfilled tt ->
  let w1 := advance (Sg := sg) handle (handleDeleteContact shown a true) (idle shown) in
  let w2 := advance (Sg := sg) handle (handleDeleteContact shown b true) w1 in
  let w3 := settle (Sg := sg) handle 0 srv w2 in
  let w4 := settle (Sg := sg) handle 0 srv w3 in
  inflight w4 = [] /\
  requests (history w4) = [deleteContact a; deleteContact b] /\
  contacts (state w3) = without a shown /\
  contacts (state w4) = without b shown /\
  forall c, In c shown -> id c = a -> a <> b -> In c (contacts (state w4)).
Proof.
  intros Ha Hb. cbn. unfold settle; cbn. rewrite Ha. cbn. rewrite Hb. cbn.
  repeat split; try reflexivity.
  intros c Hc Hi Hab. apply In_without. split; [exact Hc|congruence].
Qed.

Lemma overlapping_deletes_keep_first_witness :
  contacts (state (settle (Sg := sg) handle 0 up
                     (settle (Sg := sg) handle 0 up
                        (advance (Sg := sg) handle (handleDeleteContact [ana; rui] 2 true)
                           (advance (Sg := sg) handle (handleDeleteContact [ana; rui] 1 true)
                              (idle [ana; rui])))))) = [ana].
Proof.
  exact (proj1 (proj2 (proj2 (proj2
    (overlapping_deletes_keep_first [ana; rui] 1 2 up eq_refl eq_refl))))).
Defined.

(** X26: handleSaveConfig always fulfils, sends the configuration it
    closed over once, ends with saving off and changes neither the
    configuration nor the contacts; its one toast tells success from
    failure. *)
Theorem handleSaveConfig_outcomes (config0 : Config) (srv : Server) (s : State) :
  let r := run srv (handleSaveConfig config0) in
  let s' := after s (fst r) in
  snd r = Fulfilled tt /\
  requests (fst r) = [updateConfig config0] /\
  saving s' = false /\
  config s' = config s /\
  contacts s' = contacts s /\
  toasts (fst r) = match srv (updateConfig config0) with
                   | Fulfilled _ => [toast_success "SOS settings saved successfully"]
                   | Rejected _ => [toast_error "Failed to save SOS settings"]
                   end.
Proof.
  cbv zeta. unfold handleSaveConfig. cbn.
  destruct (srv (updateConfig config0)) as [[]|e]; cbn; repeat split; reflexivity.
Qed.

End SOSSettingsProps.
